(** * BASICParser: shallow embedding of the C64 BASIC decoder

    The Python sources embedded here are [scripts/basics.py] ([BASICToken],
    [BASICFile]), [scripts/tagger.py] ([Tagger]) and [scripts/parser.py]
    ([Parser]).  Bytes are [Z] values in 0..255, Python [str] values are
    Rocq [string]s (the replacement character U+FFFD is kept as its UTF-8
    encoding, which no comparison in the source can tell apart), and the
    exceptions the source can raise ([IndexError], [KeyError],
    [ValueError]) are [None] of an [option]. *)

From Stdlib Require Import ZArith List String Ascii Bool Lia.
Import ListNotations.
Open Scope Z_scope.
Open Scope list_scope.

(* ------------------------------------------------------------------ *)
(** ** Python string helpers *)

Definition str1 (c : ascii) : string := String c EmptyString.

(** The double quote character as a one-character string. *)
Definition dq : string := str1 "034"%char.

(** [chr(v)] for a byte value. *)
Definition chr (v : Z) : ascii := ascii_of_nat (Z.to_nat v).

(** [str.lower()] on the characters the decoder produces: only the ASCII
    capitals change. *)
Definition lower_char (c : ascii) : ascii :=
  let n := nat_of_ascii c in
  if ((65 <=? n)%nat && (n <=? 90)%nat)%bool then ascii_of_nat (n + 32) else c.

Fixpoint lower (s : string) : string :=
  match s with
  | EmptyString => EmptyString
  | String c r => String (lower_char c) (lower r)
  end.

(** Python's [s[-1]]: [None] is the [IndexError] on the empty string. *)
Fixpoint last_char_of (s : string) : option ascii :=
  match s with
  | EmptyString => None
  | String c EmptyString => Some c
  | String _ r => last_char_of r
  end.

Fixpoint string_in (s : string) (l : list string) : bool :=
  match l with
  | [] => false
  | x :: r => String.eqb s x || string_in s r
  end.

(** U+FFFD, UTF-8 encoded. *)
Definition replacement_char : string :=
  String (ascii_of_nat 239) (String (ascii_of_nat 191) (String (ascii_of_nat 189) EmptyString)).

Definition hex_digit (n : Z) : ascii :=
  if n <? 10 then ascii_of_nat (Z.to_nat (48 + n)) else ascii_of_nat (Z.to_nat (87 + n)).

(** [f"{v:02x}"] for a byte. *)
Definition hex2 (v : Z) : string :=
  String (hex_digit (v / 16)) (str1 (hex_digit (v mod 16))).

(** [bytes([v]).decode("ascii", errors="replace")] *)
Definition decode_ascii_replace (v : Z) : string :=
  if v <? 128 then str1 (chr v) else replacement_char.

(** [str(bytes([v]))], Python's repr of a one-byte [bytes] object. *)
Definition py_bytes_str (v : Z) : string :=
  if v =? 39 then ("b" ++ dq ++ "'" ++ dq)%string
  else if v =? 92 then "b'\\'"%string
  else if v =? 9 then "b'\t'"%string
  else if v =? 10 then "b'\n'"%string
  else if v =? 13 then "b'\r'"%string
  else if (32 <=? v) && (v <? 127) then ("b'" ++ str1 (chr v) ++ "'")%string
  else ("b'\x" ++ hex2 v ++ "'")%string.

(** Decimal rendering of a natural number. *)
Fixpoint digits_of (fuel : nat) (n : Z) (acc : string) : string :=
  match fuel with
  | O => acc
  | S f =>
      let acc' := String (ascii_of_nat (Z.to_nat (48 + n mod 10))) acc in
      if n <? 10 then acc' else digits_of f (n / 10) acc'
  end.

Definition dec_string (n : Z) : string :=
  if n <? 0 then ("-" ++ digits_of 64 (- n) EmptyString)%string
  else digits_of 64 n EmptyString.

Fixpoint spaces (k : nat) : string :=
  match k with O => EmptyString | S k' => String " " (spaces k') end.

(** [f"{n:>5d}"] *)
Definition fmt5d (n : Z) : string :=
  let s := dec_string n in (spaces (5 - String.length s) ++ s)%string.

Fixpoint join (sep : string) (l : list string) : string :=
  match l with
  | [] => EmptyString
  | [x] => x
  | x :: r => (x ++ sep ++ join sep r)%string
  end.

(* ------------------------------------------------------------------ *)
(** ** PETSCII tables ([scripts/petscii.py]) *)

(** Modelled from the spec: [BYTE_TO_CMD] of [scripts/petscii.py], which is
    not among the sources.  Section 6 of the spec lists the keywords of the
    command table, bytes [0x80] to [0xCB] in this order; the operator bytes
    it names ([0xAA]-[0xAE] arithmetic, [0xB1]-[0xB3] relational [>], [=],
    [<], [0xA8], [0xAF], [0xB0] logical) fall at these positions. *)
Definition cmd_keywords : list string :=
  ["END"; "FOR"; "NEXT"; "DATA"; "INPUT#"; "INPUT"; "DIM"; "READ"; "LET";
   "GOTO"; "RUN"; "IF"; "RESTORE"; "GOSUB"; "RETURN"; "REM"; "STOP"; "ON";
   "WAIT"; "LOAD"; "SAVE"; "VERIFY"; "DEF"; "POKE"; "PRINT#"; "PRINT";
   "CONT"; "LIST"; "CLR"; "CMD"; "SYS"; "OPEN"; "CLOSE"; "GET"; "NEW";
   "TAB("; "TO"; "FN"; "SPC("; "THEN"; "NOT"; "STEP"; "+"; "-"; "*"; "/";
   "^"; "AND"; "OR"; ">"; "="; "<"; "SGN"; "INT"; "ABS"; "USR"; "FRE";
   "POS"; "SQR"; "RND"; "LOG"; "EXP"; "COS"; "SIN"; "TAN"; "ATN"; "PEEK";
   "LEN"; "STR$"; "VAL"; "ASC"; "CHR$"; "LEFT$"; "RIGHT$"; "MID$"; "GO"]%string.

Definition BYTE_TO_CMD (v : Z) : option string :=
  if v <? 128 then None else nth_error cmd_keywords (Z.to_nat (v - 128)).

(** Modelled from the spec: [BYTE_TO_CTRL] of [scripts/petscii.py]: the
    non-printable PETSCII bytes with their [{name}] glyphs in the [petcat]
    convention (control and colour codes); printable ASCII is not in it. *)
Definition ctrl_table : list (Z * string) :=
  [(5, "{wht}"); (17, "{down}"); (18, "{rvon}"); (19, "{home}"); (20, "{del}");
   (28, "{red}"); (29, "{rght}"); (30, "{grn}"); (31, "{blu}");
   (129, "{orng}"); (144, "{blk}"); (145, "{up}"); (146, "{rvof}");
   (147, "{clr}"); (149, "{brn}"); (150, "{lred}"); (151, "{gry1}");
   (152, "{gry2}"); (153, "{lgrn}"); (154, "{lblu}"); (155, "{gry3}");
   (156, "{pur}"); (157, "{left}"); (158, "{yel}"); (159, "{cyn}")]%string.

Fixpoint assoc_Z {A} (k : Z) (l : list (Z * A)) : option A :=
  match l with
  | [] => None
  | (k', a) :: r => if k =? k' then Some a else assoc_Z k r
  end.

Definition BYTE_TO_CTRL (v : Z) : option string := assoc_Z v ctrl_table.

(** [dict.get(key, default)] on [BYTE_TO_CTRL]. *)
Definition ctrl_get (v : Z) (default : string) : string :=
  match BYTE_TO_CTRL v with Some s => s | None => default end.

(** The keys of [ASCII_CODES]. *)
Inductive AsciiKind := letter | number | punctuation | sigil.

(** Modelled from the spec: the partition [ASCII_CODES] of
    [scripts/petscii.py], inverted as [Parser.asciiCodes] /
    [Tagger.asciiCodes]: letters [A-Z a-z], digits [0-9], sigils [$ %],
    punctuation the other printables from [0x20]. *)
Definition asciiCodes (v : Z) : option AsciiKind :=
  if ((65 <=? v) && (v <=? 90)) || ((97 <=? v) && (v <=? 122)) then Some letter
  else if (48 <=? v) && (v <=? 57) then Some number
  else if (v =? 36) || (v =? 37) then Some sigil
  else if (32 <=? v) && (v <=? 126) then Some punctuation
  else None.

(** Modelled from the spec: [ASSEMBLY_CHARS] of [scripts/petscii.py]: hex
    digits, comma, space and [$]. *)
Definition ASSEMBLY_CHARS : string := "0123456789abcdefABCDEF, $"%string.

Fixpoint char_in (c : ascii) (s : string) : bool :=
  match s with
  | EmptyString => false
  | String d r => Ascii.eqb c d || char_in c r
  end.

(* ------------------------------------------------------------------ *)
(** ** The tagset ([scripts/tagset.json]) *)

(** A [TagInfo]: the tag and the values it matches. *)
Record TagInfo := mkTagInfo { tag : string; values : list string }.

(** The three-level mapping category -> subcategory -> [TagInfo], in the
    iteration order of the loaded [OrderedDict]. *)
Definition TagsetType := list (string * list (string * TagInfo)).

(** Modelled from the spec: [scripts/tagset.json] is not among the sources.
    The categories and subcategories are the ones the spec names; the tags
    follow the spec's prefixes ([V] variables, [N] numbers, [S] strings). *)
Definition tagset : TagsetType :=
  [("commands",
     [("statement", mkTagInfo "C"
        ["END"; "FOR"; "NEXT"; "DATA"; "INPUT#"; "INPUT"; "DIM"; "READ"; "LET";
         "GOTO"; "RUN"; "IF"; "RESTORE"; "GOSUB"; "RETURN"; "REM"; "STOP"; "ON";
         "WAIT"; "LOAD"; "SAVE"; "VERIFY"; "DEF"; "POKE"; "PRINT#"; "PRINT";
         "CONT"; "LIST"; "CLR"; "CMD"; "SYS"; "OPEN"; "CLOSE"; "GET"; "NEW";
         "TAB("; "TO"; "FN"; "SPC("; "THEN"; "STEP"; "GO"]);
      ("function", mkTagInfo "F"
        ["SGN"; "INT"; "ABS"; "USR"; "FRE"; "POS"; "SQR"; "RND"; "LOG"; "EXP";
         "COS"; "SIN"; "TAN"; "ATN"; "PEEK"; "LEN"; "STR$"; "VAL"; "ASC";
         "CHR$"; "LEFT$"; "RIGHT$"; "MID$"])]);
   ("operators",
     [("arithmetic", mkTagInfo "OA" ["+"; "-"; "*"; "/"; "^"]);
      ("relational", mkTagInfo "OR" [">"; "="; "<"]);
      ("logical", mkTagInfo "OL" ["NOT"; "AND"; "OR"]);
      ("assignment", mkTagInfo "OS" ["="]);
      ("unary", mkTagInfo "OU" ["+"; "-"])]);
   ("strings",
     [("string", mkTagInfo "SS" []);
      ("comment", mkTagInfo "SC" []);
      ("print", mkTagInfo "SP" [])]);
   ("numbers",
     [("integer", mkTagInfo "NI" []);
      ("real", mkTagInfo "NR" [])]);
   ("variables",
     [("real", mkTagInfo "VR" []);
      ("integer", mkTagInfo "VI" []);
      ("string", mkTagInfo "VS" [])]);
   ("punctuations",
     [("bracket", mkTagInfo "PB" ["("; ")"]);
      ("separator", mkTagInfo "PS" [","; ":"; ";"]);
      ("type", mkTagInfo "PT" ["$"; "%"]);
      ("other", mkTagInfo "PO" [])]);
   ("constants", [("pi", mkTagInfo "K" [])]);
   ("data", [("data", mkTagInfo "D" [])]);
   ("system",
     [("time", mkTagInfo "YT" []);
      ("IO", mkTagInfo "YI" [])]);
   ("unknown", [("unknown", mkTagInfo "U" [])])]%string.

Fixpoint assoc_str {A} (k : string) (l : list (string * A)) : option A :=
  match l with
  | [] => None
  | (k', a) :: r => if String.eqb k k' then Some a else assoc_str k r
  end.

Definition category (cat : string) : list (string * TagInfo) :=
  match assoc_str cat tagset with Some c => c | None => [] end.

(** [tagset[cat][sub]["tag"]]; every key the source uses is present. *)
Definition tag_of (cat sub : string) : string :=
  match assoc_str sub (category cat) with Some i => tag i | None => EmptyString end.

(* ------------------------------------------------------------------ *)
(** ** [BASICToken] ([scripts/basics.py]) *)

Inductive Language := BASIC | ASSEMBLY.

Definition Language_eqb (a b : Language) : bool :=
  match a, b with
  | BASIC, BASIC | ASSEMBLY, ASSEMBLY => true
  | _, _ => false
  end.

Record BASICToken := mkBASICToken {
  value : Z;
  lineno : Z;
  byte : list Z;           (* [_byte], read through the [byte] property *)
  byte_repr : string;
  token : string;
  syntax : string;
  language : Language
}.

(** [BASICToken(value, lineno)]: byte and repr computed from [value]. *)
Definition new_token (v ln : Z) : BASICToken :=
  mkBASICToken v ln [v] ("0x" ++ hex2 v)%string EmptyString EmptyString BASIC.

(** [BASICToken(value, lineno, byte=..., byte_repr=..., token=...)]. *)
Definition new_token_full (v ln : Z) (b : list Z) (r t : string) : BASICToken :=
  mkBASICToken v ln b r t EmptyString BASIC.

Definition set_token (t : BASICToken) (s : string) : BASICToken :=
  mkBASICToken (value t) (lineno t) (byte t) (byte_repr t) s (syntax t) (language t).

Definition set_syntax (t : BASICToken) (s : string) : BASICToken :=
  mkBASICToken (value t) (lineno t) (byte t) (byte_repr t) (token t) s (language t).

Definition set_language (t : BASICToken) (l : Language) : BASICToken :=
  mkBASICToken (value t) (lineno t) (byte t) (byte_repr t) (token t) (syntax t) l.

(** [_add_check_other]: [false] is the [ValueError]. *)
Definition add_check_other (a b : BASICToken) : bool :=
  (lineno a =? lineno b) && Language_eqb (language a) (language b).

(** [__add__]: a new token. *)
Definition token_add (a b : BASICToken) : option BASICToken :=
  if add_check_other a b then
    Some (new_token_full (value a) (lineno a) (byte a ++ byte b)
            (byte_repr a ++ byte_repr b)%string
            (token a ++ " " ++ token b)%string)
  else None.

(** [__iadd__]: [a] updated in place. *)
Definition token_iadd (a b : BASICToken) : option BASICToken :=
  if add_check_other a b then
    Some (mkBASICToken (value b) (lineno a) (byte a ++ byte b)
            (byte_repr a ++ " " ++ byte_repr b)%string
            (token a ++ token b)%string (syntax a) (language a))
  else None.

Definition is_whitespace (t : BASICToken) : bool :=
  match byte t with [v] => v =? 32 | _ => false end.

Definition kind_is (k : AsciiKind) (v : Z) : bool :=
  match asciiCodes v, k with
  | Some letter, letter | Some number, number
  | Some punctuation, punctuation | Some sigil, sigil => true
  | _, _ => false
  end.

Definition is_digit (t : BASICToken) : bool := kind_is number (value t).
Definition is_letter (t : BASICToken) : bool := kind_is letter (value t).
Definition is_sigil (t : BASICToken) : bool := kind_is sigil (value t).

Definition is_ascii_letter (c : ascii) : bool :=
  let n := nat_of_ascii c in
  ((65 <=? n)%nat && (n <=? 90)%nat) || ((97 <=? n)%nat && (n <=? 122)%nat).

Definition is_alpha (t : BASICToken) : bool :=
  match token t with
  | EmptyString => false
  | String c _ => is_ascii_letter c
  end.

(* ------------------------------------------------------------------ *)
(** ** [BASICFile] *)

Definition BASICFile := list (Z * list BASICToken).

Definition add_line (f : BASICFile) (tokens : list BASICToken) (ln : Z) : BASICFile :=
  f ++ [(ln, tokens)].

(** The text [save_file] writes. *)
Definition save_file (f : BASICFile) : string :=
  join (str1 (ascii_of_nat 10))
    (map (fun '(ln, tokens) => (fmt5d ln ++ " " ++ join " " (map token tokens))%string) f).

(* ------------------------------------------------------------------ *)
(** ** [Tagger] ([scripts/tagger.py]) *)

Definition parse_string (t : BASICToken) : string := tag_of "strings" "string".

Fixpoint first_match (tok : string) (subs : list (string * TagInfo)) : option string :=
  match subs with
  | [] => None
  | (_, i) :: r => if string_in tok (values i) then Some (tag i) else first_match tok r
  end.

Definition parse_ascii (t : BASICToken) (decoded_tokens : list BASICToken) : string :=
  match asciiCodes (value t) with
  | Some letter => tag_of "variables" "real"
  | Some number =>
      match rev decoded_tokens with
      | l :: _ => if String.eqb (token l) "." then tag_of "numbers" "real"
                  else tag_of "numbers" "integer"
      | [] => tag_of "numbers" "integer"
      end
  | Some sigil => tag_of "punctuations" "type"
  | Some punctuation =>
      match first_match (token t) (category "punctuations") with
      | Some tg => tg
      | None => tag_of "punctuations" "other"
      end
  | None => "unknown"%string
  end.

Definition in_Z (v : Z) (l : list Z) : bool := existsb (Z.eqb v) l.

Definition parse_operator (t : BASICToken) : option string :=
  if in_Z (value t) [170; 171; 172; 173; 174] then Some (tag_of "operators" "arithmetic")
  else if in_Z (value t) [177; 178; 179] then Some (tag_of "operators" "relational")
  else if in_Z (value t) [168; 175; 176] then Some (tag_of "operators" "logical")
  else None.

Definition parse_command (t : BASICToken) : string :=
  match parse_operator t with
  | Some op => op
  | None =>
      match first_match (token t) (category "commands") with
      | Some tg => tg
      | None =>
          match first_match (token t) (category "constants") with
          | Some tg => tg
          | None => tag_of "unknown" "unknown"
          end
      end
  end.

(* ------------------------------------------------------------------ *)
(** ** The lexer state of [Parser] ([scripts/parser.py]) *)

Definition obind {A B} (o : option A) (f : A -> option B) : option B :=
  match o with Some a => f a | None => None end.

Notation "'let*' x := e 'in' f" := (obind e (fun x => f))
  (at level 200, x pattern, e at level 100, f at level 200).

(** The per-line attributes [_lex_line] resets.  [last_char] is not a field:
    the source assigns it [decoded_tokens[-1]] after every processed byte and
    nowhere else, so it is always an alias of the last decoded token (and
    [None] before the first one); see [last_char] below. *)
Record LexState := mkLexState {
  comment_cmd : bool;
  print_cmd : bool;
  string_decl : bool;
  is_data_block : bool;
  parenthesis : Z;
  append_btoken : bool;
  decoded_tokens : list BASICToken
}.

Definition init_state : LexState :=
  mkLexState false false false false 0 true [].

Definition set_comment (s : LexState) (x : bool) : LexState :=
  mkLexState x (print_cmd s) (string_decl s) (is_data_block s) (parenthesis s) (append_btoken s) (decoded_tokens s).
Definition set_print (s : LexState) (x : bool) : LexState :=
  mkLexState (comment_cmd s) x (string_decl s) (is_data_block s) (parenthesis s) (append_btoken s) (decoded_tokens s).
Definition set_string_decl (s : LexState) (x : bool) : LexState :=
  mkLexState (comment_cmd s) (print_cmd s) x (is_data_block s) (parenthesis s) (append_btoken s) (decoded_tokens s).
Definition set_data_block (s : LexState) (x : bool) : LexState :=
  mkLexState (comment_cmd s) (print_cmd s) (string_decl s) x (parenthesis s) (append_btoken s) (decoded_tokens s).
Definition set_parenthesis (s : LexState) (x : Z) : LexState :=
  mkLexState (comment_cmd s) (print_cmd s) (string_decl s) (is_data_block s) x (append_btoken s) (decoded_tokens s).
Definition set_append (s : LexState) (x : bool) : LexState :=
  mkLexState (comment_cmd s) (print_cmd s) (string_decl s) (is_data_block s) (parenthesis s) x (decoded_tokens s).
Definition set_tokens (s : LexState) (x : list BASICToken) : LexState :=
  mkLexState (comment_cmd s) (print_cmd s) (string_decl s) (is_data_block s) (parenthesis s) (append_btoken s) x.

Fixpoint last_opt {A} (l : list A) : option A :=
  match l with
  | [] => None
  | [x] => Some x
  | _ :: r => last_opt r
  end.

(** Python's [l[-k]] for [k >= 1]. *)
Definition nth_neg {A} (l : list A) (k : nat) : option A :=
  if (k <=? List.length l)%nat then nth_error l (List.length l - k) else None.

Fixpoint update_nth {A} (n : nat) (f : A -> A) (l : list A) : list A :=
  match l, n with
  | [], _ => []
  | x :: r, O => f x :: r
  | x :: r, S n' => x :: update_nth n' f r
  end.

(** [l[-1] = f(l[-1])] (in place on the aliased object). *)
Definition update_last {A} (f : A -> A) (l : list A) : list A :=
  update_nth (List.length l - 1) f l.

Definition last_char (st : LexState) : option BASICToken := last_opt (decoded_tokens st).

Definition starts_with (c : ascii) (s : string) : bool :=
  match s with String d _ => Ascii.eqb c d | EmptyString => false end.

(** [btoken.byte == bytes([c])] *)
Definition byte_is (t : BASICToken) (c : Z) : bool :=
  match byte t with [x] => x =? c | _ => false end.

Definition is_nil {A} (l : list A) : bool := match l with [] => true | _ => false end.

Section Lexer.

(** [Parser.replace_error], i.e. [errors == "replace"]. *)
Variable replace_error : bool.

(** The loop of [_disambiguate_equal_sign] over [decoded_tokens[::-1]];
    [syn] is the assignment tag it starts from. *)
Fixpoint scan_equal (b : BASICToken) (prior : list BASICToken) (syn : string) : string :=
  match prior with
  | [] => syn
  | p :: r =>
      if String.eqb (token p) "IF" then parse_command b
      else if string_in (token p) [":"; ";"; "THEN"]%string then syn
      else scan_equal b r syn
  end.

Definition disambiguate_equal_sign (st : LexState) (b : BASICToken) : BASICToken :=
  set_syntax b (scan_equal b (rev (decoded_tokens st)) (tag_of "operators" "assignment")).

Definition decode_cmd (st : LexState) (b : BASICToken) : option (LexState * BASICToken) :=
  let v := value b in
  let chunk_rel :=
    match last_char st with
    | Some l => in_Z v [177; 178; 179] && in_Z (value l) [177; 178; 179] && negb (v =? value l)
    | None => false
    end in
  let st0 :=
    if chunk_rel then set_append st false
    else if (v =? 131) && is_nil (decoded_tokens st) then set_data_block (set_append st true) true
    else set_append st true in
  let st1 := set_print st0 (if negb (print_cmd st0) then in_Z v [152; 153] else print_cmd st0) in
  let st2 := set_comment st1 (in_Z v [143]) in
  if string_decl st2 then
    let b1 := set_token b (ctrl_get v (py_bytes_str v)) in
    Some (set_append st2 false, set_syntax b1 (parse_string b1))
  else
    let* tok := if replace_error
                then Some (match BYTE_TO_CMD v with Some s => s | None => replacement_char end)
                else BYTE_TO_CMD v in
    let b1 := set_token b tok in
    let b2 := set_syntax b1 (parse_command b1) in
    if (v =? 178) && negb (is_nil (decoded_tokens st2))
    then Some (st2, disambiguate_equal_sign st2 b2)
    else Some (st2, b2).

Definition belongs_to_previous_byte (st : LexState) (b : BASICToken) : bool :=
  match last_char st with
  | None => false
  | Some l =>
      (is_letter b && is_letter l) || (is_digit b && is_digit l)
      || (is_digit b && is_letter l) || string_decl st
      || (is_sigil b && starts_with "V" (syntax l))
  end.

Definition disambiguate_dot (st : LexState) (b : BASICToken) : option (LexState * BASICToken) :=
  match last_char st with
  | None => Some (st, b)
  | Some l =>
      let* cond := if String.eqb (token b) "." && is_digit l then Some true
                   else match last_char_of (token l) with
                        | Some c => Some (Ascii.eqb c ".")
                        | None => None
                        end in
      if cond then
        let real := tag_of "numbers" "real" in
        Some (set_append (set_tokens st (update_last (fun t => set_syntax t real) (decoded_tokens st))) false,
              set_syntax b real)
      else Some (st, b)
  end.

Definition decode_ascii (st : LexState) (b : BASICToken) : option (LexState * BASICToken) :=
  let b1 := set_token b (str1 (lower_char (chr (value b)))) in
  let b2 := set_syntax b1 (parse_ascii b1 (decoded_tokens st)) in
  let st1 := set_append st (negb (belongs_to_previous_byte st b2)) in
  let st2 :=
    if byte_is b2 34 then
      if parenthesis st1 + 1 =? 2
      then set_parenthesis (set_string_decl st1 false) 0
      else set_parenthesis (set_string_decl st1 true) (parenthesis st1 + 1)
    else st1 in
  let* (st3, b3) :=
    if string_decl st2 then Some (st2, set_syntax b2 (parse_string b2))
    else if is_digit b2 || String.eqb (token b2) "." then disambiguate_dot st2 b2
    else if is_sigil b2 then
      match last_opt (decoded_tokens st2) with
      | Some l =>
          if is_alpha l then
            let vt := if String.eqb (token b2) "$" then tag_of "variables" "string"
                      else tag_of "variables" "integer" in
            Some (set_tokens st2 (update_last (fun t => set_syntax t vt) (decoded_tokens st2)), b2)
          else Some (st2, set_syntax b2 (tag_of "punctuations" "other"))
      | None => Some (st2, set_syntax b2 (tag_of "punctuations" "other"))
      end
    else
      match last_opt (decoded_tokens st2) with
      | Some l =>
          if String.eqb (token b2) "(" && starts_with "V" (syntax l) then
            let* c := last_char_of (syntax l) in
            Some (set_tokens st2 (update_last (fun t => set_syntax t ("VA" ++ str1 c)%string)
                                   (decoded_tokens st2)), b2)
          else Some (st2, b2)
      | None => Some (st2, b2)
      end in
  if is_data_block st3 && negb (String.eqb (token b3) ",")
  then Some (st3, set_syntax b3 (tag_of "data" "data"))
  else Some (st3, b3).

Definition decode_string (st : LexState) (b : BASICToken) : option (LexState * BASICToken) :=
  let v := value b in
  if byte_is b 34 then
    let b1 := set_token b dq in
    if parenthesis st + 1 =? 2
    then Some (set_string_decl (set_append (set_parenthesis st 0) false) false, b1)
    else Some (set_append (set_parenthesis st (parenthesis st + 1)) true, b1)
  else if parenthesis st =? 0 then
    let st1 := set_append st true in
    if v <? 32 then
      let b1 := set_token b (ctrl_get v (py_bytes_str v)) in
      Some (st1, set_syntax b1 (parse_string b1))
    else if (32 <=? v) && (v <=? 127) then decode_ascii st1 b
    else if 128 <=? v then decode_cmd st1 b
    else Some (st1, set_syntax (set_token b (py_bytes_str v)) "?_unknown")
  else
    let b1 := set_token b (ctrl_get v (lower (decode_ascii_replace v))) in
    Some (set_append st false, set_syntax b1 (tag_of "strings" "string")).

Definition decode_comment_statement (st : LexState) (b : BASICToken) : LexState * BASICToken :=
  let v := value b in
  let b1 := set_syntax b (tag_of "strings" "comment") in
  let tok := if v <? 32 then ctrl_get v (py_bytes_str v)
             else if v <? 128 then lower (decode_ascii_replace v)
             else ctrl_get v (decode_ascii_replace v) in
  let st1 := match last_char st with
             | Some l => if negb (in_Z (value l) [143]) then set_append st false else st
             | None => st
             end in
  (st1, set_token b1 tok).

Definition within_string_like_expression (st : LexState) : bool :=
  print_cmd st || comment_cmd st || string_decl st.

(** [_disambiguate_unary_signs]: [if last and ...] tests the truthiness of
    a [BASICToken], which is [len(last.byte) != 0]; [tokens[-2]] is
    evaluated before [is_first] is used, so it raises [IndexError] when the
    sign is the only token. *)
Definition disambiguate_unary_signs (st : LexState) : option LexState :=
  match last_char st with
  | Some last =>
      if negb (is_nil (byte last)) && string_in (token last) ["+"; "-"]%string then
        let tokens := decoded_tokens st in
        let is_first := Nat.eqb (List.length tokens) 1 in
        let* prev := nth_neg tokens 2 in
        let syn := syntax prev in
        let is_nonexpr :=
          negb (starts_with "V" syn || starts_with "N" syn || starts_with "S" syn
                || String.eqb (token prev) ")") in
        if is_first || is_nonexpr
        then Some (set_tokens st (update_last (fun t => set_syntax t (tag_of "operators" "unary")) tokens))
        else Some st
      else Some st
  | None => Some st
  end.

Definition check_for_system_var (st : LexState) : option LexState :=
  let tokens := decoded_tokens st in
  let* last_token := last_opt tokens in
  if negb (String.eqb (syntax last_token) "") && starts_with "V" (syntax last_token) then
    if string_in (lower (token last_token)) ["ti$"; "time$"]%string then
      Some (set_tokens st (update_last (fun t => set_syntax t (tag_of "system" "time")) tokens))
    else if string_in (lower (token last_token)) ["st"; "status"]%string then
      Some (set_tokens st (update_last (fun t => set_syntax t (tag_of "system" "IO")) tokens))
    else Some st
  else if (2 <? List.length tokens)%nat then
    let* p := nth_neg tokens 2 in
    if string_in (lower (token p)) ["ti"; "time"]%string
    then Some (set_tokens st (update_nth (List.length tokens - 2)
                                (fun t => set_syntax t (tag_of "system" "time")) tokens))
    else Some st
  else Some st.

(** [decoded_tokens[-1] += btoken]. *)
Fixpoint iadd_last (l : list BASICToken) (b : BASICToken) : option (list BASICToken) :=
  match l with
  | [] => None
  | [x] => let* y := token_iadd x b in Some [y]
  | x :: r => let* r' := iadd_last r b in Some (x :: r')
  end.

(** The [if self.string_decl: ... elif ...] dispatch of the loop body. *)
Definition dispatch_byte (st : LexState) (b : BASICToken) : option (LexState * BASICToken) :=
  let v := value b in
  if string_decl st then decode_string st b
  else if comment_cmd st then Some (decode_comment_statement st b)
  else if v <? 32 then
    let b' := set_token b (ctrl_get v (py_bytes_str v)) in
    Some (if string_decl st then set_append st false else st,
          set_syntax b' (parse_string b'))
  else if (32 <=? v) && (v <=? 127) then decode_ascii st b
  else if 128 <=? v then decode_cmd st b
  else Some (set_append st true, set_syntax (set_token b (py_bytes_str v)) "?_unknown").

(** [if self.append_btoken: append, else chunk onto [decoded_tokens[-1]]]. *)
Definition append_or_chunk (st : LexState) (b : BASICToken) : option (list BASICToken) :=
  if append_btoken st then Some (decoded_tokens st ++ [b])
  else match decoded_tokens st with
       | [] => Some [b]
       | _ => iadd_last (decoded_tokens st) b
       end.

(** One iteration of the [for value in hexbytes] loop of [_lex_line]. *)
Definition lex_byte (ln : Z) (st : LexState) (v : Z) : option LexState :=
  let b := new_token v ln in
  if is_whitespace b && negb (within_string_like_expression st) then Some st
  else
    let* (st1, b1) := dispatch_byte st b in
    let* st2 := disambiguate_unary_signs st1 in
    let* toks := append_or_chunk st2 b1 in
    check_for_system_var (set_tokens st2 toks).

Fixpoint lex_bytes (ln : Z) (st : LexState) (bs : list Z) : option LexState :=
  match bs with
  | [] => Some st
  | v :: r => let* st' := lex_byte ln st v in lex_bytes ln st' r
  end.

(** The values [_check_line_language]'s generator yields: one membership
    test in [ASSEMBLY_CHARS] per character of the tokens after the first. *)
Definition assembly_char_tests (rest : list string) : list bool :=
  flat_map (fun tk => map (fun c => char_in c ASSEMBLY_CHARS) (list_ascii_of_string tk)) rest.

(** [_check_line_language]: in [all((gen),)] the trailing comma ends the
    argument list, so the generator itself is the argument of [all], which
    consumes the membership tests it yields. *)
Definition check_line_language (tokens : list BASICToken) : list BASICToken :=
  match map token tokens with
  | first :: rest =>
      if String.eqb (lower first) "data"
         && forallb (fun x => x) (assembly_char_tests rest)
      then map (fun t => set_language t ASSEMBLY) tokens
      else tokens
  | [] => tokens
  end.

Definition lex_line (ln : Z) (line : list Z) : option (list BASICToken) :=
  let* st := lex_bytes ln init_state line in
  Some (check_line_language (decoded_tokens st)).

End Lexer.

(* ------------------------------------------------------------------ *)
(** ** The binary line-record parser and [decode_basic_file] *)

(** [struct.unpack_from("<H", binary, pos)] *)
Definition u16 (binary : list Z) (pos : Z) : Z :=
  nth (Z.to_nat pos) binary 0 + 256 * nth (Z.to_nat (pos + 1)) binary 0.

(** [set(xs) == {0}] *)
Definition set_is_zero (xs : list Z) : bool :=
  negb (is_nil xs) && forallb (fun x => x =? 0) xs.

(** [binary.index(0x00, pos)]; [None] is the [ValueError]. *)
Fixpoint index_zero (xs : list Z) (i : Z) : option Z :=
  match xs with
  | [] => None
  | x :: r => if x =? 0 then Some i else index_zero r (i + 1)
  end.

Definition index_from (binary : list Z) (pos : Z) : option Z :=
  index_zero (skipn (Z.to_nat pos) binary) pos.

Definition slice (binary : list Z) (a b : Z) : list Z :=
  firstn (Z.to_nat (b - a)) (skipn (Z.to_nat a) binary).

(** The [while pos < end - 4] loop of [_detokenize_line]: the records the
    generator yields, and the positions of the warnings it prints.  Each
    iteration advances [pos] by at least 5, so [length binary] iterations
    of fuel are never exhausted. *)
Fixpoint detokenize_loop (fuel : nat) (binary : list Z) (pos : Z)
  : list (Z * list Z) * list Z :=
  match fuel with
  | O => ([], [])
  | S f =>
      if pos <? Z.of_nat (List.length binary) - 4 then
        let lineno := u16 binary (pos + 2) in
        let pos1 := pos + 4 in
        if (lineno =? 0) && set_is_zero (skipn (Z.to_nat pos1) binary) then ([], [])
        else match index_from binary pos1 with
             | None => ([], [pos1])
             | Some eol =>
                 let text := slice binary pos1 eol in
                 let '(recs, warns) := detokenize_loop f binary (eol + 1) in
                 ((lineno, text) :: recs, warns)
             end
      else ([], [])
  end.

Definition detokenize_line (binary : list Z) : list (Z * list Z) * list Z :=
  detokenize_loop (List.length binary) binary 2.

Definition lineno_limits : Z * Z := (0, 65536).

Fixpoint decode_records (replace_error : bool) (recs : list (Z * list Z)) (bfile : BASICFile)
  : option BASICFile :=
  match recs with
  | [] => Some bfile
  | (ln, txt) :: r =>
      let* bfile' :=
        if (fst lineno_limits <=? ln) && (ln <=? snd lineno_limits)
        then let* toks := lex_line replace_error ln txt in Some (add_line bfile toks ln)
        else Some bfile in
      if snd lineno_limits <=? ln then Some bfile' else decode_records replace_error r bfile'
  end.

(** [decode_basic_file] on the bytes the file contains. *)
Definition decode_basic_file (replace_error : bool) (binary : list Z) : option BASICFile :=
  decode_records replace_error (fst (detokenize_line binary)) [].

(* ------------------------------------------------------------------ *)
(** ** Frame lemmas: what each step of the lexer leaves unchanged *)

(** The value and bytes of a token: only chunking changes them. *)
Definition vb (t : BASICToken) : Z * list Z := (value t, byte t).

Lemma map_update_nth {A B} (g : A -> B) (f : A -> A) n l :
  (forall x, g (f x) = g x) -> map g (update_nth n f l) = map g l.
Proof.
  intros Hf. revert n. induction l as [|x r IH]; intros [|n]; cbn; auto.
  - now rewrite Hf.
  - now rewrite IH.
Qed.

Lemma map_update_last {A B} (g : A -> B) (f : A -> A) l :
  (forall x, g (f x) = g x) -> map g (update_last f l) = map g l.
Proof. intros Hf. unfold update_last. now apply map_update_nth. Qed.

Lemma length_update_nth {A} (f : A -> A) n l : List.length (update_nth n f l) = List.length l.
Proof. revert n. induction l as [|x r IH]; intros [|n]; cbn; auto. Qed.

Lemma last_opt_app {A} (l : list A) x : last_opt (l ++ [x]) = Some x.
Proof. induction l as [|a [|b r] IH]; cbn in *; auto. Qed.

Lemma last_opt_none {A} (l : list A) : last_opt l = None -> l = [].
Proof. induction l as [|a [|b r] IH]; cbn; intros H; auto; try discriminate. now apply IH in H. Qed.

Lemma last_opt_in {A} (l : list A) x : last_opt l = Some x -> In x l.
Proof. induction l as [|a [|b r] IH]; cbn; intros H; try discriminate.
  - inversion H; auto.
  - right. now apply IH. Qed.

Ltac split_hyps :=
  repeat match goal with
  | H : Some _ = Some _ |- _ => injection H; clear H; intros
  | H : (_, _) = (_, _) |- _ => injection H; clear H; intros
  | H : None = Some _ |- _ => discriminate H
  | H : context [if ?c then _ else _] |- _ => destruct c eqn:?
  | H : context [match ?x with _ => _ end] |- _ => destruct x eqn:?
  end; subst.

Ltac frame_tokens :=
  cbn [decoded_tokens set_tokens set_append set_string_decl set_parenthesis
       set_comment set_print set_data_block vb value byte set_syntax set_token];
  repeat first [ rewrite map_update_last by reflexivity | rewrite map_update_nth by reflexivity ];
  auto.

Lemma decode_cmd_frame re st b st' b' :
  decode_cmd re st b = Some (st', b') ->
  map vb (decoded_tokens st') = map vb (decoded_tokens st) /\ vb b' = vb b /\
  string_decl st' = string_decl st /\ parenthesis st' = parenthesis st.
Proof.
  unfold decode_cmd, obind, disambiguate_equal_sign. cbv zeta. intros H.
  split_hyps; frame_tokens; repeat split; auto.
Qed.

Lemma disambiguate_dot_frame st b st' b' :
  disambiguate_dot st b = Some (st', b') ->
  map vb (decoded_tokens st') = map vb (decoded_tokens st) /\ vb b' = vb b /\
  string_decl st' = string_decl st /\ parenthesis st' = parenthesis st.
Proof.
  unfold disambiguate_dot, obind. cbv zeta. intros H.
  split_hyps; frame_tokens; repeat split; auto.
Qed.

(** The string mode after [_decode_ascii]: only a double quote changes it. *)
Definition ascii_string_mode (st : LexState) (b : BASICToken) : bool * Z :=
  if byte_is b 34 then
    if parenthesis st + 1 =? 2 then (false, 0) else (true, parenthesis st + 1)
  else (string_decl st, parenthesis st).

Lemma byte_is_set_syntax t s c : byte_is (set_syntax t s) c = byte_is t c.
Proof. reflexivity. Qed.

Lemma byte_is_set_token t s c : byte_is (set_token t s) c = byte_is t c.
Proof. reflexivity. Qed.

Lemma decode_ascii_frame st b st' b' :
  decode_ascii st b = Some (st', b') ->
  map vb (decoded_tokens st') = map vb (decoded_tokens st) /\ vb b' = vb b /\
  (string_decl st', parenthesis st') = ascii_string_mode st b.
Proof.
  unfold decode_ascii, ascii_string_mode. cbv zeta. intros H.
  match type of H with obind ?m _ = _ => destruct m as [[st3 b3]|] eqn:Hm end;
    [|discriminate H].
  cbn [obind] in H.
  match type of Hm with
  | (if string_decl ?s then _ else _) = _ => set (st2 := s) in Hm
  end.
  assert (E : map vb (decoded_tokens st3) = map vb (decoded_tokens st2) /\
              vb b3 = vb b /\ string_decl st3 = string_decl st2 /\
              parenthesis st3 = parenthesis st2).
  { clearbody st2.
    destruct (disambiguate_dot st2 _) as [[s4 c4]|] eqn:Hd;
      [apply disambiguate_dot_frame in Hd as (Hd1 & Hd2 & Hd3 & Hd4)|].
    all: unfold obind in Hm; split_hyps; frame_tokens.
    all: repeat split; try congruence. }
  destruct E as (E1 & E2 & E3 & E4).
  assert (Hs2 : map vb (decoded_tokens st2) = map vb (decoded_tokens st) /\
                (string_decl st2, parenthesis st2) =
                (if byte_is b 34 then
                   if parenthesis st + 1 =? 2 then (false, 0) else (true, parenthesis st + 1)
                 else (string_decl st, parenthesis st))).
  { subst st2. rewrite !byte_is_set_syntax, !byte_is_set_token.
    destruct (byte_is b 34); cbn [parenthesis set_append];
      [destruct (parenthesis st + 1 =? 2)|]; cbn; auto. }
  destruct Hs2 as [Hs1 Hs2].
  destruct (_ && _) in H; injection H as <- <-;
    (split; [rewrite E1; exact Hs1 | split; [exact E2 | rewrite E3, E4; exact Hs2]]).
Qed.

Lemma decode_string_frame re st b st' b' :
  decode_string re st b = Some (st', b') ->
  map vb (decoded_tokens st') = map vb (decoded_tokens st) /\ vb b' = vb b.
Proof.
  unfold decode_string. cbv zeta. intros H.
  destruct (byte_is b 34).
  - destruct (_ =? 2); injection H as <- <-; auto.
  - destruct (parenthesis st =? 0).
    + destruct (value b <? 32); [injection H as <- <-; auto|].
      destruct (_ && _).
      { apply decode_ascii_frame in H as (H1 & H2 & _); auto. }
      destruct (128 <=? value b).
      { apply decode_cmd_frame in H as (H1 & H2 & _); auto. }
      injection H as <- <-; auto.
    + injection H as <- <-; auto.
Qed.

(** Inside a string ([parenthesis = 1]) the string sub-lexer either closes
    the string on a double quote or leaves the string mode alone. *)
Lemma decode_string_mode re st b st' b' :
  parenthesis st = 1 ->
  decode_string re st b = Some (st', b') ->
  (string_decl st', parenthesis st') =
  (if byte_is b 34 then (false, 0) else (string_decl st, parenthesis st)).
Proof.
  unfold decode_string. cbv zeta. intros Hp H. rewrite Hp in *.
  destruct (byte_is b 34); cbn in H;
    injection H as <- <-; destruct st; cbn in *; congruence.
Qed.

Lemma decode_comment_frame st b :
  map vb (decoded_tokens (fst (decode_comment_statement st b))) = map vb (decoded_tokens st) /\
  vb (snd (decode_comment_statement st b)) = vb b /\
  string_decl (fst (decode_comment_statement st b)) = string_decl st /\
  parenthesis (fst (decode_comment_statement st b)) = parenthesis st /\
  comment_cmd (fst (decode_comment_statement st b)) = comment_cmd st.
Proof.
  unfold decode_comment_statement. cbv zeta.
  destruct (last_char st) as [l|]; [destruct (negb _)|]; cbn; auto.
Qed.

(** The unary-sign pass and the system-variable pass only retag tokens. *)
Lemma disambiguate_unary_signs_frame st st' :
  disambiguate_unary_signs st = Some st' ->
  st' = set_tokens st (decoded_tokens st') /\
  map vb (decoded_tokens st') = map vb (decoded_tokens st).
Proof.
  unfold disambiguate_unary_signs, obind. cbv zeta. intros H.
  split_hyps;
    (split; [ try reflexivity; match goal with s : LexState |- _ => destruct s; reflexivity end
            | frame_tokens ]).
Qed.

Lemma check_for_system_var_frame st st' :
  check_for_system_var st = Some st' ->
  st' = set_tokens st (decoded_tokens st') /\
  map vb (decoded_tokens st') = map vb (decoded_tokens st).
Proof.
  unfold check_for_system_var, obind. cbv zeta. intros H.
  split_hyps;
    (split; [ try reflexivity; match goal with s : LexState |- _ => destruct s; reflexivity end
            | frame_tokens ]).
Qed.

Lemma dispatch_byte_frame re st b st1 b1 :
  dispatch_byte re st b = Some (st1, b1) ->
  map vb (decoded_tokens st1) = map vb (decoded_tokens st) /\ vb b1 = vb b.
Proof.
  unfold dispatch_byte. cbv zeta. intros H.
  destruct (string_decl st); [now apply decode_string_frame in H|].
  destruct (comment_cmd st).
  { assert (E : decode_comment_statement st b = (st1, b1)) by congruence.
    pose proof (decode_comment_frame st b) as (F1 & F2 & _).
    rewrite E in F1, F2. auto. }
  destruct (value b <? 32); [injection H as <- <-; auto|].
  destruct (_ && _); [apply decode_ascii_frame in H as (F1 & F2 & _); auto|].
  destruct (128 <=? value b); [apply decode_cmd_frame in H as (F1 & F2 & _); auto|].
  injection H as <- <-; auto.
Qed.

(** ** The string-mode invariant of the lexer *)

(** [string_decl] holds exactly when one quote is open. *)
Definition string_mode_inv (st : LexState) : Prop :=
  string_decl st = (parenthesis st =? 1) /\ (parenthesis st = 0 \/ parenthesis st = 1).

Lemma dispatch_byte_mode re st b st1 b1 :
  string_mode_inv st ->
  dispatch_byte re st b = Some (st1, b1) ->
  string_mode_inv st1.
Proof.
  unfold dispatch_byte, string_mode_inv. cbv zeta. intros [Hs Hp] H.
  destruct (string_decl st) eqn:Hsd.
  { assert (Hp1 : parenthesis st = 1) by (destruct Hp as [Hp|Hp]; rewrite Hp in Hs; easy).
    pose proof (decode_string_mode re st b st1 b1 Hp1 H) as M.
    destruct (byte_is b 34); injection M as M1 M2; rewrite M1, M2; auto.
    rewrite Hp1. auto. }
  destruct (comment_cmd st).
  { assert (E : decode_comment_statement st b = (st1, b1)) by congruence.
    pose proof (decode_comment_frame st b) as (_ & _ & F3 & F4 & _).
    rewrite E in F3, F4. cbn in F3, F4. rewrite F3, F4, Hsd. auto. }
  destruct (value b <? 32); [injection H as <- <-; rewrite Hsd; auto|].
  destruct (_ && _).
  { apply decode_ascii_frame in H as (_ & _ & M). unfold ascii_string_mode in M.
    assert (Hp0 : parenthesis st = 0) by (destruct Hp as [Hp|Hp]; rewrite Hp in Hs; easy).
    rewrite Hp0 in M. cbn in M.
    destruct (byte_is b 34); injection M as M1 M2; rewrite M1, M2; auto. }
  destruct (128 <=? value b).
  { apply decode_cmd_frame in H as (_ & _ & F3 & F4). rewrite F3, F4, Hsd. auto. }
  injection H as <- <-. cbn. rewrite Hsd. auto.
Qed.

Lemma lex_byte_mode re ln st v st' :
  string_mode_inv st -> lex_byte re ln st v = Some st' -> string_mode_inv st'.
Proof.
  unfold lex_byte. cbv zeta. intros Hi H.
  destruct (_ && _); [injection H as <-; exact Hi|].
  destruct (dispatch_byte re st _) as [[st1 b1]|] eqn:Hd; [|discriminate H].
  apply dispatch_byte_mode in Hd; [|exact Hi].
  cbn [obind] in H.
  destruct (disambiguate_unary_signs st1) as [st2|] eqn:Hu; [|discriminate H].
  apply disambiguate_unary_signs_frame in Hu as [Hu _].
  cbn [obind] in H.
  destruct (append_or_chunk st2 b1) as [toks|]; [|discriminate H].
  cbn [obind] in H.
  apply check_for_system_var_frame in H as [H _].
  rewrite H, Hu in *. unfold string_mode_inv in *. cbn in *. exact Hd.
Qed.

Lemma lex_bytes_mode re ln bs : forall st st',
  string_mode_inv st -> lex_bytes re ln st bs = Some st' -> string_mode_inv st'.
Proof.
  induction bs as [|v r IH]; cbn; intros st st' Hi H.
  - injection H as <-. exact Hi.
  - destruct (lex_byte re ln st v) as [s1|] eqn:E; [|discriminate H].
    cbn in H. eapply IH; [|exact H]. eapply lex_byte_mode; eauto.
Qed.

(** ** The [value] field of the tokens the lexer produces *)

(** [value] is the last byte of [byte]. *)
Definition value_is_last (t : BASICToken) : Prop :=
  exists pre, byte t = pre ++ [value t].

Lemma Forall_value_is_last_vb l l' :
  map vb l = map vb l' -> Forall value_is_last l -> Forall value_is_last l'.
Proof.
  revert l'. induction l as [|x r IH]; intros [|y r'] E F; try discriminate; auto.
  cbn in E. injection E as E1 E2 E3. inversion F as [|? ? [pre Hx] Fr]; subst.
  constructor; [|now apply IH].
  exists pre. rewrite <- E2, <- E1. exact Hx.
Qed.

Lemma iadd_last_cons x y r b :
  iadd_last (x :: y :: r) b = let* r' := iadd_last (y :: r) b in Some (x :: r').
Proof. reflexivity. Qed.

Lemma iadd_last_value_is_last l b l' :
  byte b = [value b] -> Forall value_is_last l -> iadd_last l b = Some l' ->
  Forall value_is_last l'.
Proof.
  intros Hb. revert l'. induction l as [|x [|y r] IH]; intros l' F H.
  - discriminate H.
  - cbn in H. unfold token_iadd in H. destruct (add_check_other x b); [|discriminate H].
    cbn in H. injection H as <-. inversion F as [|? ? [pre Hx] _]; subst.
    constructor; [|constructor]. exists (byte x). cbn. now rewrite Hb.
  - rewrite iadd_last_cons in H.
    destruct (iadd_last (y :: r) b) as [r'|] eqn:E; [|discriminate H].
    cbn in H. injection H as <-. inversion F; subst.
    constructor; [assumption|]. now apply IH.
Qed.

Lemma lex_byte_value_is_last re ln st v st' :
  Forall value_is_last (decoded_tokens st) ->
  lex_byte re ln st v = Some st' ->
  Forall value_is_last (decoded_tokens st').
Proof.
  unfold lex_byte. cbv zeta. intros Hi H.
  destruct (_ && _); [injection H as <-; exact Hi|].
  destruct (dispatch_byte re st _) as [[st1 b1]|] eqn:Hd; [|discriminate H].
  apply dispatch_byte_frame in Hd as [D1 D2].
  cbn [obind] in H.
  destruct (disambiguate_unary_signs st1) as [st2|] eqn:Hu; [|discriminate H].
  apply disambiguate_unary_signs_frame in Hu as [_ U2].
  cbn [obind] in H.
  destruct (append_or_chunk st2 b1) as [toks|] eqn:Ha; [|discriminate H].
  cbn [obind] in H.
  apply check_for_system_var_frame in H as [_ H].
  cbn [decoded_tokens set_tokens] in H.
  apply (Forall_value_is_last_vb toks); [exact (eq_sym H)|].
  assert (Hb1 : byte b1 = [value b1]).
  { cbn in D2. injection D2 as -> ->. reflexivity. }
  assert (H2 : Forall value_is_last (decoded_tokens st2)).
  { apply (Forall_value_is_last_vb (decoded_tokens st)); [congruence | exact Hi]. }
  unfold append_or_chunk in Ha.
  destruct (append_btoken st2).
  - injection Ha as <-. apply Forall_app. split; [exact H2|].
    constructor; [|constructor]. exists []. exact Hb1.
  - destruct (decoded_tokens st2) as [|t r] eqn:Et.
    + injection Ha as <-. constructor; [|constructor]. exists []. exact Hb1.
    + exact (iadd_last_value_is_last (t :: r) b1 toks Hb1 H2 Ha).
Qed.

Lemma lex_bytes_value_is_last re ln bs : forall st st',
  Forall value_is_last (decoded_tokens st) ->
  lex_bytes re ln st bs = Some st' -> Forall value_is_last (decoded_tokens st').
Proof.
  induction bs as [|v r IH]; cbn; intros st st' Hi H.
  - injection H as <-. exact Hi.
  - destruct (lex_byte re ln st v) as [s1|] eqn:E; [|discriminate H].
    cbn in H. eapply IH; [|exact H]. eapply lex_byte_value_is_last; eauto.
Qed.

(** ** The equal-sign scan *)

Definition is_separator (t : BASICToken) : bool :=
  string_in (token t) [":"; ";"; "THEN"]%string.

(** An [IF] token with neither an [IF] nor a separator after it. *)
Definition if_before_separator (tokens : list BASICToken) : Prop :=
  exists pre t post, tokens = pre ++ t :: post /\ token t = "IF"%string /\
    Forall (fun u => token u <> "IF"%string /\ is_separator u = false) post.

(** The same, on the reversed list the source scans. *)
Definition if_found_rev (l : list BASICToken) : Prop :=
  exists post t pre, l = post ++ t :: pre /\ token t = "IF"%string /\
    Forall (fun u => token u <> "IF"%string /\ is_separator u = false) post.

Lemma scan_equal_found b l syn : if_found_rev l -> scan_equal b l syn = parse_command b.
Proof.
  intros (post & t & pre & -> & Ht & F). induction post as [|p r IH]; cbn [scan_equal app].
  - now rewrite Ht.
  - inversion F as [|? ? [Hp Hs] Fr]; subst.
    apply String.eqb_neq in Hp. rewrite Hp. unfold is_separator in Hs. rewrite Hs.
    now apply IH.
Qed.

Lemma scan_equal_not_found b l syn : ~ if_found_rev l -> scan_equal b l syn = syn.
Proof.
  induction l as [|p r IH]; cbn [scan_equal]; intros N; [reflexivity|].
  destruct (String.eqb (token p) "IF") eqn:E1.
  { exfalso. apply N. exists [], p, r. apply String.eqb_eq in E1. auto. }
  destruct (string_in (token p) _) eqn:E2; [reflexivity|].
  apply IH. intros (post & t & pre & -> & Ht & F). apply N.
  exists (p :: post), t, pre. repeat split; auto. constructor; auto.
  split; [now apply String.eqb_neq|exact E2].
Qed.

Lemma if_before_separator_rev l : if_before_separator l <-> if_found_rev (rev l).
Proof.
  split.
  - intros (pre & t & post & -> & Ht & F). exists (rev post), t, (rev pre).
    rewrite rev_app_distr. cbn. rewrite <- app_assoc. repeat split; auto.
    apply Forall_rev. exact F.
  - intros (post & t & pre & E & Ht & F). exists (rev pre), t, (rev post).
    rewrite <- (rev_involutive l), E, rev_app_distr. cbn. rewrite <- app_assoc.
    repeat split; auto. apply Forall_rev in F. exact F.
Qed.

(** ** Chunking of the bytes of the token list *)

Lemma update_last_cons2 {A} (f : A -> A) x y r :
  update_last f (x :: y :: r) = x :: update_last f (y :: r).
Proof. unfold update_last. cbn. now rewrite Nat.sub_0_r. Qed.

Lemma iadd_last_bytes l b l' :
  iadd_last l b = Some l' -> map byte l' = update_last (fun bs => bs ++ byte b) (map byte l).
Proof.
  revert l'. induction l as [|x [|y r] IH]; intros l' H.
  - discriminate H.
  - cbn in H. unfold token_iadd in H. destruct (add_check_other x b); [|discriminate H].
    cbn in H. injection H as <-. reflexivity.
  - rewrite iadd_last_cons in H.
    destruct (iadd_last (y :: r) b) as [r'|] eqn:E; [|discriminate H].
    cbn in H. injection H as <-. cbn [map]. rewrite update_last_cons2.
    cbn [map]. f_equal. now apply IH.
Qed.

Lemma map_byte_vb l l' : map vb l = map vb l' -> map byte l = map byte l'.
Proof.
  intros E. apply (f_equal (map snd)) in E. rewrite !map_map in E. exact E.
Qed.

Lemma decode_cmd_append re st b st1 b1 :
  decode_cmd re st b = Some (st1, b1) ->
  string_decl st = false ->
  append_btoken st1 =
  negb (match last_char st with
        | Some l => in_Z (value b) [177; 178; 179] && in_Z (value l) [177; 178; 179]
                    && negb (value b =? value l)
        | None => false
        end).
Proof.
  unfold decode_cmd. cbv zeta. intros H Hs.
  set (c := match last_char st with Some _ => _ | None => false end) in *.
  assert (Hs' : string_decl (set_comment (set_print
            (if c then set_append st false
             else if (value b =? 131) && is_nil (decoded_tokens st)
                  then set_data_block (set_append st true) true else set_append st true)
            (if negb (print_cmd (if c then set_append st false
             else if (value b =? 131) && is_nil (decoded_tokens st)
                  then set_data_block (set_append st true) true else set_append st true))
             then in_Z (value b) [152; 153]
             else print_cmd (if c then set_append st false
             else if (value b =? 131) && is_nil (decoded_tokens st)
                  then set_data_block (set_append st true) true else set_append st true)))
            (in_Z (value b) [143])) = false).
  { destruct c; [|destruct (_ && _)]; exact Hs. }
  rewrite Hs' in H. unfold obind in H.
  destruct (if re then _ else _) as [tok|]; [|discriminate H].
  destruct ((value b =? 178) && _) in H; injection H as <- _;
    destruct c; try destruct (_ && _); reflexivity.
Qed.

Lemma check_line_language_vb l : map vb (check_line_language l) = map vb l.
Proof.
  unfold check_line_language. destruct (map token l); [reflexivity|].
  destruct (_ && _); [|reflexivity]. rewrite map_map. reflexivity.
Qed.

Lemma decode_cmd_equal_sign re ln st :
  string_decl st = false -> decoded_tokens st <> [] ->
  exists st', decode_cmd re st (new_token 178 ln) =
    Some (st', disambiguate_equal_sign st'
                 (set_syntax (set_token (new_token 178 ln) "=") (tag_of "operators" "relational")))
    /\ decoded_tokens st' = decoded_tokens st.
Proof.
  intros Hs Hne. destruct st as [c p sd db par ap toks]; cbn in Hs, Hne; subst sd.
  destruct toks as [|t r]; [contradiction|].
  unfold decode_cmd, obind. cbv zeta.
  destruct (match last_char _ with Some _ => _ | None => false end);
    destruct re; cbn; eexists; split; reflexivity.
Qed.

Lemma length_string_append (x y : string) :
  String.length (x ++ y) = (String.length x + String.length y)%nat.
Proof. induction x as [|c x IH]; cbn; congruence. Qed.

(** The file of the spec's first end-to-end scenario. *)
Definition e1_file : list Z := [1; 8; 12; 8; 10; 0; 153; 32; 34; 72; 73; 34; 0; 0; 0].

(** The file of the first scenario with its last line's terminator removed. *)
Definition unterminated_file : list Z := [1; 8; 12; 8; 10; 0; 65; 65].

(* ------------------------------------------------------------------ *)
(** ** One iteration of the lexer loop *)

(** The flags of the lexer state (everything but the token list). *)
Definition flags (st : LexState) : bool * bool * bool * bool * Z * bool :=
  (comment_cmd st, print_cmd st, string_decl st, is_data_block st, parenthesis st,
   append_btoken st).

(** What appending or chunking [b] does to the bytes of the token list. *)
Definition chunk_bytes (append : bool) (l : list (list Z)) (v : Z) : list (list Z) :=
  if append then l ++ [[v]]
  else if is_nil l then [[v]]
  else update_last (fun bs => bs ++ [v]) l.

Lemma is_whitespace_new_token v ln : is_whitespace (new_token v ln) = (v =? 32).
Proof. reflexivity. Qed.

Lemma flags_set_tokens st l : flags (set_tokens st l) = flags st.
Proof. reflexivity. Qed.

(** An iteration either skips a space byte outside string-like context, or
    keeps the flags the byte handler set and appends or chunks the byte. *)
Lemma lex_byte_step re ln st v st' :
  lex_byte re ln st v = Some st' ->
  (v = 32 /\ within_string_like_expression st = false /\ st' = st) \/
  exists st1 b1, dispatch_byte re st (new_token v ln) = Some (st1, b1) /\
    flags st' = flags st1 /\
    map byte (decoded_tokens st') =
      chunk_bytes (append_btoken st1) (map byte (decoded_tokens st)) v.
Proof.
  unfold lex_byte. cbv zeta. intros H.
  destruct (is_whitespace (new_token v ln) && negb (within_string_like_expression st)) eqn:W.
  { left. rewrite is_whitespace_new_token in W. apply andb_prop in W as [W1 W2].
    apply Z.eqb_eq in W1. apply negb_true_iff in W2. injection H as <-. auto. }
  right.
  destruct (dispatch_byte re st (new_token v ln)) as [[st1 b1]|] eqn:Hd; [|discriminate H].
  exists st1, b1. split; [reflexivity|].
  pose proof (dispatch_byte_frame _ _ _ _ _ Hd) as [D1 D2].
  cbn [obind] in H.
  destruct (disambiguate_unary_signs st1) as [st2|] eqn:Hu; [|discriminate H].
  apply disambiguate_unary_signs_frame in Hu as [U1 U2].
  cbn [obind] in H.
  destruct (append_or_chunk st2 b1) as [toks|] eqn:Ha; [|discriminate H].
  cbn [obind] in H.
  apply check_for_system_var_frame in H as [S1 S2].
  cbn [decoded_tokens set_tokens] in S2.
  split.
  { rewrite S1, flags_set_tokens, flags_set_tokens, U1, flags_set_tokens. reflexivity. }
  apply map_byte_vb in S2. rewrite S2.
  assert (T : map byte (decoded_tokens st2) = map byte (decoded_tokens st)).
  { apply map_byte_vb. congruence. }
  assert (Ab : append_btoken st2 = append_btoken st1) by (rewrite U1; reflexivity).
  assert (Hb1 : byte b1 = [v]) by (cbn in D2; injection D2 as _ ->; reflexivity).
  unfold append_or_chunk in Ha. unfold chunk_bytes. rewrite Ab in Ha.
  destruct (append_btoken st1).
  - injection Ha as <-. rewrite map_app, T. cbn [map]. rewrite Hb1. reflexivity.
  - destruct (decoded_tokens st2) as [|t r] eqn:Et.
    + injection Ha as <-. cbn in T.
      destruct (decoded_tokens st); [|discriminate T]. cbn. rewrite Hb1. reflexivity.
    + rewrite <- Et in Ha, T. apply iadd_last_bytes in Ha. rewrite Ha, T, Hb1.
      destruct (decoded_tokens st); [|reflexivity].
      rewrite Et in T. discriminate T.
Qed.

Lemma concat_update_last_app (l : list (list Z)) x :
  l <> [] -> List.concat (update_last (fun bs => bs ++ x) l) = List.concat l ++ x.
Proof.
  intros Hne. induction l as [|a [|b r] IH]; [contradiction| |].
  - cbn. rewrite !app_nil_r. reflexivity.
  - rewrite update_last_cons2. cbn [List.concat]. rewrite IH by discriminate.
    cbn [List.concat]. rewrite app_assoc. reflexivity.
Qed.

(** Appending or chunking, the byte ends up after all earlier bytes. *)
Lemma concat_chunk_bytes a l v : List.concat (chunk_bytes a l v) = List.concat l ++ [v].
Proof.
  unfold chunk_bytes. destruct a.
  - rewrite concat_app. cbn. reflexivity.
  - destruct l as [|x r]; [reflexivity|]. cbn [is_nil].
    apply concat_update_last_app. discriminate.
Qed.

Lemma lex_byte_concat re ln st v st' :
  lex_byte re ln st v = Some st' ->
  (v = 32 /\ within_string_like_expression st = false /\ st' = st) \/
  List.concat (map byte (decoded_tokens st')) = List.concat (map byte (decoded_tokens st)) ++ [v].
Proof.
  intros H. destruct (lex_byte_step _ _ _ _ _ H) as [L|(st1 & b1 & _ & _ & E)]; [left; exact L|].
  right. rewrite E. apply concat_chunk_bytes.
Qed.

Lemma lex_bytes_concat_nospace re ln bs : forall st st',
  ~ In 32 bs ->
  lex_bytes re ln st bs = Some st' ->
  List.concat (map byte (decoded_tokens st')) = List.concat (map byte (decoded_tokens st)) ++ bs.
Proof.
  induction bs as [|v r IH]; cbn [lex_bytes]; intros st st' Hn H.
  - injection H as <-. rewrite app_nil_r. reflexivity.
  - destruct (lex_byte re ln st v) as [s1|] eqn:E; [|discriminate H].
    cbn [obind] in H. rewrite (IH _ _ (fun h => Hn (or_intror h)) H).
    destruct (lex_byte_concat _ _ _ _ _ E) as [(-> & _ & _)|C].
    + exfalso. apply Hn. left. reflexivity.
    + rewrite C, <- app_assoc. reflexivity.
Qed.

(** [drops_spaces xs ys]: [ys] is [xs] with some of its [0x20] bytes
    deleted, the other bytes kept in order. *)
Inductive drops_spaces : list Z -> list Z -> Prop :=
| drops_nil : drops_spaces [] []
| drops_keep x xs ys : drops_spaces xs ys -> drops_spaces (x :: xs) (x :: ys)
| drops_space xs ys : drops_spaces xs ys -> drops_spaces (32 :: xs) ys.

Lemma lex_bytes_concat_drops re ln bs : forall st st',
  lex_bytes re ln st bs = Some st' ->
  exists d, drops_spaces bs d /\
    List.concat (map byte (decoded_tokens st')) = List.concat (map byte (decoded_tokens st)) ++ d.
Proof.
  induction bs as [|v r IH]; cbn [lex_bytes]; intros st st' H.
  - injection H as <-. exists []. split; [constructor | rewrite app_nil_r; reflexivity].
  - destruct (lex_byte re ln st v) as [s1|] eqn:E; [|discriminate H].
    cbn [obind] in H. destruct (IH _ _ H) as (d & D & C).
    destruct (lex_byte_concat _ _ _ _ _ E) as [(-> & _ & ->)|C1].
    + exists d. split; [constructor; exact D | exact C].
    + exists (v :: d). split; [constructor; exact D|].
      rewrite C, C1, <- app_assoc. reflexivity.
Qed.

Lemma lex_bytes_app re ln a b st :
  lex_bytes re ln st (a ++ b) = obind (lex_bytes re ln st a) (fun s => lex_bytes re ln s b).
Proof.
  revert st. induction a as [|v r IH]; intros st; cbn [lex_bytes app]; [reflexivity|].
  destruct (lex_byte re ln st v); cbn [obind]; [apply IH | reflexivity].
Qed.

Lemma check_line_language_bytes l : map byte (check_line_language l) = map byte l.
Proof. apply map_byte_vb. apply check_line_language_vb. Qed.

Lemma check_line_language_tokens l : map token (check_line_language l) = map token l.
Proof.
  unfold check_line_language. destruct (map token l) as [|f r] eqn:M; [exact M|].
  destruct (_ && _); [|exact M]. rewrite map_map. exact M.
Qed.

Lemma assembly_char_tests_forallb rest :
  forallb (fun x => x) (assembly_char_tests rest) =
  forallb (fun tk => forallb (fun c => char_in c ASSEMBLY_CHARS) (list_ascii_of_string tk)) rest.
Proof.
  unfold assembly_char_tests. induction rest as [|tk r IH]; [reflexivity|].
  cbn [flat_map forallb]. rewrite forallb_app, IH. f_equal.
  induction (list_ascii_of_string tk) as [|c cs IHc]; [reflexivity|].
  cbn [map forallb]. rewrite IHc. reflexivity.
Qed.


(* ------------------------------------------------------------------ *)
(** ** Line number and language of the tokens *)

Definition meta (t : BASICToken) : Z * Language := (lineno t, language t).

Ltac frame_meta :=
  cbn [decoded_tokens set_tokens set_append set_string_decl set_parenthesis
       set_comment set_print set_data_block meta lineno language set_syntax set_token];
  repeat first [ rewrite map_update_last by reflexivity | rewrite map_update_nth by reflexivity ];
  auto.

Lemma decode_cmd_meta re st b st' b' :
  decode_cmd re st b = Some (st', b') ->
  map meta (decoded_tokens st') = map meta (decoded_tokens st) /\ meta b' = meta b.
Proof.
  unfold decode_cmd, obind, disambiguate_equal_sign. cbv zeta. intros H.
  split_hyps; frame_meta.
Qed.

Lemma disambiguate_dot_meta st b st' b' :
  disambiguate_dot st b = Some (st', b') ->
  map meta (decoded_tokens st') = map meta (decoded_tokens st) /\ meta b' = meta b.
Proof.
  unfold disambiguate_dot, obind. cbv zeta. intros H.
  split_hyps; frame_meta.
Qed.

Lemma decode_ascii_meta st b st' b' :
  decode_ascii st b = Some (st', b') ->
  map meta (decoded_tokens st') = map meta (decoded_tokens st) /\ meta b' = meta b.
Proof.
  unfold decode_ascii. cbv zeta. intros H.
  match type of H with obind ?m _ = _ => destruct m as [[st3 b3]|] eqn:Hm end;
    [|discriminate H].
  cbn [obind] in H.
  match type of Hm with
  | (if string_decl ?s then _ else _) = _ => set (st2 := s) in Hm
  end.
  assert (E : map meta (decoded_tokens st3) = map meta (decoded_tokens st2) /\ meta b3 = meta b).
  { clearbody st2.
    destruct (disambiguate_dot st2 _) as [[s4 c4]|] eqn:Hd;
      [apply disambiguate_dot_meta in Hd as (Hd1 & Hd2)|].
    all: unfold obind in Hm; split_hyps; frame_meta.
    all: split; congruence. }
  assert (Hs2 : decoded_tokens st2 = decoded_tokens st).
  { subst st2. destruct (byte_is _ 34); [destruct (_ =? 2)|]; reflexivity. }
  destruct E as [E1 E2].
  destruct (_ && _) in H; injection H as <- <-; rewrite E1, Hs2; auto.
Qed.

Lemma decode_string_meta re st b st' b' :
  decode_string re st b = Some (st', b') ->
  map meta (decoded_tokens st') = map meta (decoded_tokens st) /\ meta b' = meta b.
Proof.
  unfold decode_string. cbv zeta. intros H.
  destruct (byte_is b 34).
  - destruct (_ =? 2); injection H as <- <-; auto.
  - destruct (parenthesis st =? 0).
    + destruct (value b <? 32); [injection H as <- <-; auto|].
      destruct (_ && _); [now apply decode_ascii_meta in H|].
      destruct (128 <=? value b); [now apply decode_cmd_meta in H|].
      injection H as <- <-; auto.
    + injection H as <- <-; auto.
Qed.

Lemma decode_comment_meta st b :
  map meta (decoded_tokens (fst (decode_comment_statement st b))) = map meta (decoded_tokens st) /\
  meta (snd (decode_comment_statement st b)) = meta b.
Proof.
  unfold decode_comment_statement. cbv zeta.
  destruct (last_char st) as [l|]; [destruct (negb _)|]; cbn; auto.
Qed.

Lemma disambiguate_unary_signs_meta st st' :
  disambiguate_unary_signs st = Some st' ->
  map meta (decoded_tokens st') = map meta (decoded_tokens st).
Proof.
  unfold disambiguate_unary_signs, obind. cbv zeta. intros H.
  split_hyps; frame_meta.
Qed.

Lemma check_for_system_var_meta st st' :
  check_for_system_var st = Some st' ->
  map meta (decoded_tokens st') = map meta (decoded_tokens st).
Proof.
  unfold check_for_system_var, obind. cbv zeta. intros H.
  split_hyps; frame_meta.
Qed.

Lemma dispatch_byte_meta re st b st1 b1 :
  dispatch_byte re st b = Some (st1, b1) ->
  map meta (decoded_tokens st1) = map meta (decoded_tokens st) /\ meta b1 = meta b.
Proof.
  unfold dispatch_byte. cbv zeta. intros H.
  destruct (string_decl st); [now apply decode_string_meta in H|].
  destruct (comment_cmd st).
  { assert (E : decode_comment_statement st b = (st1, b1)) by congruence.
    pose proof (decode_comment_meta st b) as (F1 & F2).
    rewrite E in F1, F2. auto. }
  destruct (value b <? 32); [injection H as <- <-; auto|].
  destruct (_ && _); [now apply decode_ascii_meta in H|].
  destruct (128 <=? value b); [now apply decode_cmd_meta in H|].
  injection H as <- <-; auto.
Qed.

Lemma Forall_meta {P : Z * Language -> Prop} l l' :
  map meta l = map meta l' -> Forall (fun t => P (meta t)) l -> Forall (fun t => P (meta t)) l'.
Proof.
  revert l'. induction l as [|x r IH]; intros [|y r'] E F; try discriminate; auto.
  cbn [map] in E.
  assert (E1 : meta x = meta y) by congruence.
  assert (E2 : map meta r = map meta r') by congruence.
  inversion F; subst.
  constructor; [rewrite <- E1; assumption | now apply IH].
Qed.

Lemma iadd_last_meta {P : Z * Language -> Prop} l b l' :
  Forall (fun t => P (meta t)) l -> iadd_last l b = Some l' -> Forall (fun t => P (meta t)) l'.
Proof.
  revert l'. induction l as [|x [|y r] IH]; intros l' F H.
  - discriminate H.
  - cbn in H. unfold token_iadd in H. destruct (add_check_other x b); [|discriminate H].
    cbn in H. injection H as <-. inversion F; subst. constructor; [exact H1|constructor].
  - rewrite iadd_last_cons in H.
    destruct (iadd_last (y :: r) b) as [r'|] eqn:E; [|discriminate H].
    cbn in H. injection H as <-. inversion F; subst.
    constructor; [assumption|]. now apply IH.
Qed.

(** Every token the lexer holds carries the line's number and language BASIC. *)
Definition of_line (ln : Z) (m : Z * Language) : Prop := m = (ln, BASIC).

Lemma lex_byte_meta re ln st v st' :
  Forall (fun t => of_line ln (meta t)) (decoded_tokens st) ->
  lex_byte re ln st v = Some st' ->
  Forall (fun t => of_line ln (meta t)) (decoded_tokens st').
Proof.
  unfold lex_byte. cbv zeta. intros Hi H.
  destruct (_ && _); [injection H as <-; exact Hi|].
  destruct (dispatch_byte re st _) as [[st1 b1]|] eqn:Hd; [|discriminate H].
  apply dispatch_byte_meta in Hd as [D1 D2].
  cbn [obind] in H.
  destruct (disambiguate_unary_signs st1) as [st2|] eqn:Hu; [|discriminate H].
  apply disambiguate_unary_signs_meta in Hu.
  cbn [obind] in H.
  destruct (append_or_chunk st2 b1) as [toks|] eqn:Ha; [|discriminate H].
  cbn [obind] in H.
  apply check_for_system_var_meta in H. cbn [decoded_tokens set_tokens] in H.
  apply (Forall_meta toks); [exact (eq_sym H)|].
  assert (H2 : Forall (fun t => of_line ln (meta t)) (decoded_tokens st2)).
  { apply (Forall_meta (decoded_tokens st)); [congruence | exact Hi]. }
  assert (Hb1 : of_line ln (meta b1)) by (rewrite D2; reflexivity).
  unfold append_or_chunk in Ha.
  destruct (append_btoken st2).
  - injection Ha as <-. apply Forall_app. split; [exact H2|]. constructor; [exact Hb1|constructor].
  - destruct (decoded_tokens st2) as [|t r] eqn:Et.
    + injection Ha as <-. constructor; [exact Hb1|constructor].
    + exact (iadd_last_meta (t :: r) b1 toks H2 Ha).
Qed.

Lemma lex_bytes_meta re ln bs : forall st st',
  Forall (fun t => of_line ln (meta t)) (decoded_tokens st) ->
  lex_bytes re ln st bs = Some st' -> Forall (fun t => of_line ln (meta t)) (decoded_tokens st').
Proof.
  induction bs as [|v r IH]; cbn; intros st st' Hi H.
  - injection H as <-. exact Hi.
  - destruct (lex_byte re ln st v) as [s1|] eqn:E; [|discriminate H].
    cbn in H. eapply IH; [|exact H]. eapply lex_byte_meta; eauto.
Qed.


(* ------------------------------------------------------------------ *)
(** ** Spaces, comments and string literals in the lexer loop *)

Lemma lex_bytes_spaces re ln st n :
  within_string_like_expression st = false ->
  lex_bytes re ln st (repeat 32 n) = Some st.
Proof.
  intros W. induction n as [|n IH]; [reflexivity|].
  cbn [repeat lex_bytes]. unfold lex_byte at 1. cbv zeta.
  rewrite is_whitespace_new_token, W. cbn [Z.eqb Pos.eqb andb negb obind]. exact IH.
Qed.

Lemma flags_eq a b :
  flags a = flags b ->
  comment_cmd a = comment_cmd b /\ print_cmd a = print_cmd b /\ string_decl a = string_decl b /\
  is_data_block a = is_data_block b /\ parenthesis a = parenthesis b /\
  append_btoken a = append_btoken b.
Proof. destruct a, b. unfold flags. cbn. intros H. injection H. intros. subst. auto 10. Qed.

Lemma decode_cmd_comment re st b st' b' :
  decode_cmd re st b = Some (st', b') -> comment_cmd st' = in_Z (value b) [143].
Proof.
  unfold decode_cmd, obind, disambiguate_equal_sign. cbv zeta. intros H.
  split_hyps; reflexivity.
Qed.

(** Outside a string, a REM byte or a byte of a comment leaves the lexer in
    comment mode, and the byte is kept. *)
Lemma lex_byte_comment re ln st v st' :
  string_decl st = false -> (comment_cmd st = true \/ v = 143) ->
  lex_byte re ln st v = Some st' ->
  comment_cmd st' = true /\ string_decl st' = false /\
  List.concat (map byte (decoded_tokens st')) = List.concat (map byte (decoded_tokens st)) ++ [v].
Proof.
  intros Hs Hc H.
  destruct (lex_byte_step _ _ _ _ _ H) as [(-> & W & _)|(st1 & b1 & Hd & F & E)].
  { exfalso. unfold within_string_like_expression in W. rewrite Hs in W.
    destruct Hc as [Hc|Hc]; [rewrite Hc in W; destruct (print_cmd st); discriminate W|discriminate Hc]. }
  rewrite E, concat_chunk_bytes.
  apply flags_eq in F as (F1 & F2 & F3 & F4 & F5 & F6). rewrite F1, F3.
  unfold dispatch_byte in Hd. rewrite Hs in Hd.
  destruct (comment_cmd st) eqn:Hcm.
  - assert (Ed : decode_comment_statement st (new_token v ln) = (st1, b1)) by congruence.
    pose proof (decode_comment_frame st (new_token v ln)) as (_ & _ & G3 & _ & G5).
    rewrite Ed in G3, G5. cbn [fst] in G3, G5. rewrite G3, G5, Hs, Hcm. auto.
  - destruct Hc as [Hc | ->]; [discriminate Hc|].
    cbn [value new_token Z.ltb Z.leb Z.compare andb Pos.compare Pos.compare_cont] in Hd.
    pose proof (decode_cmd_comment _ _ _ _ _ Hd) as G1.
    apply decode_cmd_frame in Hd as (_ & _ & G3 & _).
    rewrite G1, G3, Hs. auto.
Qed.

Lemma lex_bytes_comment re ln bs : forall st st',
  string_decl st = false -> comment_cmd st = true ->
  lex_bytes re ln st bs = Some st' ->
  List.concat (map byte (decoded_tokens st')) = List.concat (map byte (decoded_tokens st)) ++ bs.
Proof.
  induction bs as [|v r IH]; cbn [lex_bytes]; intros st st' Hs Hc H.
  - injection H as <-. rewrite app_nil_r. reflexivity.
  - destruct (lex_byte re ln st v) as [s1|] eqn:E; [|discriminate H].
    cbn [obind] in H.
    destruct (lex_byte_comment _ _ _ _ _ Hs (or_introl Hc) E) as (C1 & C2 & C3).
    rewrite (IH _ _ C2 C1 H), C3, <- app_assoc. reflexivity.
Qed.

Lemma update_last_snoc {A} (f : A -> A) l x : update_last f (l ++ [x]) = l ++ [f x].
Proof.
  induction l as [|a [|b r] IH]; [reflexivity|reflexivity|].
  change ((a :: b :: r) ++ [x]) with (a :: (b :: r) ++ [x]).
  cbn [app]. rewrite update_last_cons2.
  change (b :: r ++ [x]) with ((b :: r) ++ [x]). rewrite IH. reflexivity.
Qed.

Lemma is_nil_snoc {A} (l : list A) x : is_nil (l ++ [x]) = false.
Proof. destruct l; reflexivity. Qed.

(** The opening double quote of a string literal starts a new token. *)
Lemma decode_ascii_quote_append st ln st1 b1 :
  string_decl st = false -> parenthesis st = 0 ->
  decode_ascii st (new_token 34 ln) = Some (st1, b1) -> append_btoken st1 = true.
Proof.
  intros Hs Hp. unfold decode_ascii. cbv zeta.
  assert (B : forall s, belongs_to_previous_byte st
                (set_syntax (set_token (new_token 34 ln) (str1 (lower_char (chr 34)))) s) = false).
  { intros s. unfold belongs_to_previous_byte. destruct (last_char st); [|reflexivity].
    rewrite Hs. cbn. reflexivity. }
  rewrite B, byte_is_set_syntax, byte_is_set_token.
  cbn [byte_is new_token byte Z.eqb Pos.eqb negb parenthesis set_append].
  rewrite Hp. cbn [Z.add Z.eqb Pos.eqb string_decl set_parenthesis set_string_decl obind].
  intros H. destruct (is_data_block _ && _); injection H as <- _; reflexivity.
Qed.

Lemma lex_byte_open_quote re ln st st' :
  string_decl st = false -> comment_cmd st = false -> parenthesis st = 0 ->
  lex_byte re ln st 34 = Some st' ->
  string_decl st' = true /\ parenthesis st' = 1 /\
  map byte (decoded_tokens st') = map byte (decoded_tokens st) ++ [[34]].
Proof.
  intros Hs Hc Hp H.
  destruct (lex_byte_step _ _ _ _ _ H) as [(E & _)|(st1 & b1 & Hd & F & E)]; [discriminate E|].
  unfold dispatch_byte in Hd. rewrite Hs, Hc in Hd.
  cbn [value new_token Z.ltb Z.leb Z.compare andb Pos.compare Pos.compare_cont] in Hd.
  pose proof (decode_ascii_quote_append _ _ _ _ Hs Hp Hd) as A.
  apply decode_ascii_frame in Hd as (_ & _ & M).
  unfold ascii_string_mode in M. cbn [byte_is new_token byte Z.eqb Pos.eqb] in M.
  rewrite Hp in M. cbn in M. injection M as M1 M2.
  apply flags_eq in F as (F1 & F2 & F3 & F4 & F5 & F6).
  rewrite E, A, F3, F5, M1, M2. auto.
Qed.

Lemma lex_byte_in_string re ln st v st' :
  string_decl st = true -> parenthesis st = 1 -> v <> 34 ->
  lex_byte re ln st v = Some st' ->
  string_decl st' = true /\ parenthesis st' = 1 /\
  map byte (decoded_tokens st') = chunk_bytes false (map byte (decoded_tokens st)) v.
Proof.
  intros Hs Hp Hv H.
  destruct (lex_byte_step _ _ _ _ _ H) as [(_ & W & _)|(st1 & b1 & Hd & F & E)].
  { unfold within_string_like_expression in W. rewrite Hs, !orb_true_r in W. discriminate W. }
  unfold dispatch_byte, decode_string in Hd. rewrite Hs in Hd. cbv zeta in Hd.
  replace (byte_is (new_token v ln) 34) with false in Hd
    by (cbn; symmetry; apply Z.eqb_neq; exact Hv).
  rewrite Hp in Hd. cbn [Z.eqb Pos.eqb] in Hd. injection Hd as <- _.
  apply flags_eq in F as (F1 & F2 & F3 & F4 & F5 & F6).
  rewrite E, F3, F5. cbn. auto.
Qed.

Lemma lex_byte_close_quote re ln st st' :
  string_decl st = true -> parenthesis st = 1 ->
  lex_byte re ln st 34 = Some st' ->
  string_decl st' = false /\ parenthesis st' = 0 /\
  map byte (decoded_tokens st') = chunk_bytes false (map byte (decoded_tokens st)) 34.
Proof.
  intros Hs Hp H.
  destruct (lex_byte_step _ _ _ _ _ H) as [(E & _)|(st1 & b1 & Hd & F & E)]; [discriminate E|].
  unfold dispatch_byte, decode_string in Hd. rewrite Hs in Hd. cbv zeta in Hd.
  cbn [byte_is new_token byte Z.eqb Pos.eqb] in Hd.
  rewrite Hp in Hd. cbn [Z.add Z.eqb Pos.eqb] in Hd. injection Hd as <- _.
  apply flags_eq in F as (F1 & F2 & F3 & F4 & F5 & F6).
  rewrite E, F3, F5. cbn. auto.
Qed.

Lemma lex_bytes_string_body re ln s L : forall st st' acc,
  ~ In 34 s -> string_decl st = true -> parenthesis st = 1 ->
  map byte (decoded_tokens st) = L ++ [acc] ->
  lex_bytes re ln st s = Some st' ->
  string_decl st' = true /\ parenthesis st' = 1 /\ map byte (decoded_tokens st') = L ++ [acc ++ s].
Proof.
  induction s as [|v r IH]; cbn [lex_bytes]; intros st st' acc Hn Hs Hp Hm H.
  - injection H as <-. rewrite app_nil_r. auto.
  - destruct (lex_byte re ln st v) as [s1|] eqn:E; [|discriminate H].
    cbn [obind] in H.
    destruct (lex_byte_in_string _ _ _ _ _ Hs Hp (fun e => Hn (or_introl e)) E)
      as (C1 & C2 & C3).
    rewrite Hm in C3. unfold chunk_bytes in C3. rewrite is_nil_snoc, update_last_snoc in C3.
    replace (acc ++ v :: r) with ((acc ++ [v]) ++ r) by (rewrite <- app_assoc; reflexivity).
    exact (IH _ _ _ (fun h => Hn (or_intror h)) C1 C2 C3 H).
Qed.

Lemma string_mode_inv_init : string_mode_inv init_state.
Proof. split; [reflexivity | left; reflexivity]. Qed.


(* ------------------------------------------------------------------ *)
(** ** The record parser and [decode_basic_file] *)

Lemma index_zero_spec xs : forall i j,
  index_zero xs i = Some j ->
  i <= j /\ ~ In 0 (firstn (Z.to_nat (j - i)) xs) /\ nth_error xs (Z.to_nat (j - i)) = Some 0.
Proof.
  induction xs as [|x r IH]; cbn [index_zero]; intros i j H; [discriminate H|].
  destruct (Z.eqb_spec x 0) as [->|Hx].
  - injection H as <-. rewrite Z.sub_diag. cbn. auto with zarith.
  - destruct (IH _ _ H) as (H1 & H2 & H3).
    replace (Z.to_nat (j - i)) with (S (Z.to_nat (j - (i + 1)))) by lia.
    cbn [firstn nth_error In]. split; [lia|]. split; [|exact H3].
    intros [E|E]; [apply Hx; exact E | apply H2; exact E].
Qed.

Definition byte_range (x : Z) : Prop := 0 <= x < 256.

Lemma nth_byte_range (binary : list Z) n :
  Forall byte_range binary -> byte_range (nth n binary 0).
Proof.
  intros F. revert n. induction F as [|x r Hx F IH]; intros [|n]; cbn;
    try (unfold byte_range; lia); auto.
Qed.

Lemma u16_range binary pos : Forall byte_range binary -> 0 <= u16 binary pos < 65536.
Proof.
  intros F. unfold u16.
  pose proof (nth_byte_range binary (Z.to_nat pos) F).
  pose proof (nth_byte_range binary (Z.to_nat (pos + 1)) F).
  unfold byte_range in *. lia.
Qed.

(** A yielded record: its payload is the bytes from the record's text start
    up to, not including, the first 0x00, and its number is a [u16] read. *)
Lemma detokenize_loop_records fuel binary : forall pos ln txt,
  In (ln, txt) (fst (detokenize_loop fuel binary pos)) ->
  ~ In 0 txt /\ exists p, ln = u16 binary p.
Proof.
  induction fuel as [|f IH]; cbn [detokenize_loop]; intros pos ln txt H; [contradiction|].
  destruct (pos <? _); [|contradiction].
  destruct (_ && _); [contradiction|].
  destruct (index_from binary (pos + 4)) as [eol|] eqn:Ei; [|contradiction].
  destruct (detokenize_loop f binary (eol + 1)) as [recs warns] eqn:Er.
  cbn [fst In] in H. destruct H as [H|H].
  - injection H as <- <-. split; [|eexists; reflexivity].
    unfold index_from in Ei. apply index_zero_spec in Ei as (_ & E & _).
    unfold slice. exact E.
  - apply (IH (eol + 1)). rewrite Er. exact H.
Qed.

Lemma detokenize_line_records binary ln txt :
  In (ln, txt) (fst (detokenize_line binary)) ->
  ~ In 0 txt /\ (Forall byte_range binary -> 0 <= ln < 65536).
Proof.
  intros H. apply detokenize_loop_records in H as [H1 [p ->]].
  split; [exact H1 | apply u16_range].
Qed.

(** A record decodes to a program line: same number, the lexed payload. *)
Definition rec_lexes (re : bool) (r : Z * list Z) (l : Z * list BASICToken) : Prop :=
  fst l = fst r /\ lex_line re (fst r) (snd r) = Some (snd l).

Lemma decode_records_spec re recs :
  Forall (fun r => 0 <= fst r < 65536) recs ->
  forall acc bf, decode_records re recs acc = Some bf <->
                 exists l, bf = acc ++ l /\ Forall2 (rec_lexes re) recs l.
Proof.
  induction 1 as [|[ln txt] r Hr F IH]; intros acc bf; cbn [decode_records].
  - split.
    + intros H. injection H as <-. exists []. rewrite app_nil_r. auto.
    + intros (l & -> & H). inversion H; subst. rewrite app_nil_r. reflexivity.
  - cbn [fst] in Hr. cbn [fst snd lineno_limits].
    replace ((0 <=? ln) && (ln <=? 65536)) with true by (symmetry; apply andb_true_iff; lia).
    replace (65536 <=? ln) with false by (symmetry; apply Z.leb_gt; lia).
    destruct (lex_line re ln txt) as [toks|] eqn:El; cbn [obind].
    + rewrite IH. split.
      * intros (l & -> & H). exists ((ln, toks) :: l).
        unfold add_line. rewrite <- app_assoc. split; [reflexivity|].
        constructor; [split; auto | exact H].
      * intros (l & -> & H). inversion H as [|? [ln' toks'] ? l' [R1 R2] H']; subst.
        cbn in R1, R2. subst ln'. rewrite El in R2. injection R2 as <-.
        exists l'. unfold add_line. rewrite <- app_assoc. auto.
    + split; [discriminate|].
      intros (l & _ & H). inversion H as [|? [ln' toks'] ? l' [R1 R2] H']; subst.
      cbn in R2. rewrite El in R2. discriminate R2.
Qed.

(* ------------------------------------------------------------------ *)
(** ** Strings *)

Lemma string_app_assoc (x y z : string) : ((x ++ y) ++ z = x ++ y ++ z)%string.
Proof. induction x as [|c x IH]; cbn; congruence. Qed.

Lemma string_app_nil_r (x : string) : (x ++ "" = x)%string.
Proof. induction x as [|c x IH]; cbn; congruence. Qed.

Definition newline : ascii := ascii_of_nat 10.

Fixpoint count_nl (s : string) : nat :=
  match s with
  | EmptyString => 0
  | String c r => (if Ascii.eqb c newline then 1 else 0) + count_nl r
  end.

Lemma count_nl_app x y : count_nl (x ++ y) = (count_nl x + count_nl y)%nat.
Proof. induction x as [|c x IH]; cbn; [reflexivity|]. rewrite IH. lia. Qed.

Lemma count_nl_join sep l :
  count_nl (join sep l) =
  (fold_right Nat.add 0 (map count_nl l) + (List.length l - 1) * count_nl sep)%nat.
Proof.
  induction l as [|x [|y r] IH]; [reflexivity|cbn; lia|].
  change (join sep (x :: y :: r)) with (x ++ sep ++ join sep (y :: r))%string.
  rewrite !count_nl_app, IH. cbn [map fold_right List.length]. lia.
Qed.

Lemma count_nl_spaces k : count_nl (spaces k) = 0%nat.
Proof. induction k; cbn; auto. Qed.

Lemma count_nl_digits fuel : forall n acc,
  count_nl (digits_of fuel n acc) = count_nl acc.
Proof.
  induction fuel as [|f IH]; intros n acc; cbn [digits_of]; [reflexivity|].
  assert (D : count_nl (String (ascii_of_nat (Z.to_nat (48 + n mod 10))) acc) = count_nl acc).
  { cbn [count_nl].
    assert (Hm : 0 <= n mod 10 < 10) by (apply Z.mod_pos_bound; lia).
    destruct (Ascii.eqb_spec (ascii_of_nat (Z.to_nat (48 + n mod 10))) newline) as [E|E];
      [|reflexivity].
    exfalso. apply (f_equal nat_of_ascii) in E. unfold newline in E.
    rewrite !nat_ascii_embedding in E by lia. lia. }
  destruct (n <? 10); [exact D|]. rewrite IH. exact D.
Qed.

Lemma count_nl_fmt5d n : count_nl (fmt5d n) = 0%nat.
Proof.
  unfold fmt5d, dec_string.
  destruct (n <? 0); rewrite !count_nl_app, count_nl_spaces;
    rewrite ?count_nl_app, count_nl_digits; reflexivity.
Qed.


Lemma skipn_nth_error {A} (xs : list A) n x :
  nth_error xs n = Some x -> skipn n xs = x :: skipn (S n) xs.
Proof.
  revert n. induction xs as [|y r IH]; intros [|n] H; cbn in H |- *; try discriminate H.
  - injection H as ->. reflexivity.
  - apply IH. exact H.
Qed.

(** The payload of a yielded record is followed by a 0x00 in the file. *)
Lemma detokenize_loop_located fuel binary : forall pos ln txt,
  In (ln, txt) (fst (detokenize_loop fuel binary pos)) ->
  exists p rest, skipn p binary = txt ++ 0 :: rest.
Proof.
  induction fuel as [|f IH]; cbn [detokenize_loop]; intros pos ln txt H; [contradiction|].
  destruct (pos <? _); [|contradiction].
  destruct (_ && _); [contradiction|].
  destruct (index_from binary (pos + 4)) as [eol|] eqn:Ei; [|contradiction].
  destruct (detokenize_loop f binary (eol + 1)) as [recs warns] eqn:Er.
  cbn [fst In] in H. destruct H as [H|H].
  - injection H as <- <-. unfold index_from in Ei. apply index_zero_spec in Ei as (_ & _ & E).
    exists (Z.to_nat (pos + 4)), (skipn (S (Z.to_nat (eol - (pos + 4))))
                                    (skipn (Z.to_nat (pos + 4)) binary)).
    unfold slice. rewrite <- (skipn_nth_error _ _ _ E). symmetry. apply firstn_skipn.
  - apply (IH (eol + 1) ln). rewrite Er. exact H.
Qed.

Definition is_byte (x : Z) : bool := (0 <=? x) && (x <? 256).

Lemma forallb_is_byte binary : forallb is_byte binary = true -> Forall byte_range binary.
Proof.
  intros H. apply Forall_forall. intros x Hx. rewrite forallb_forall in H.
  specialize (H x Hx). unfold is_byte in H. apply andb_prop in H as [H1 H2].
  apply Z.leb_le in H1. apply Z.ltb_lt in H2. unfold byte_range. lia.
Qed.

(** No token text holds a newline. *)
Definition no_newline_tokens (bf : BASICFile) : bool :=
  forallb (fun l => forallb (fun t => Nat.eqb (count_nl (token t)) 0) (snd l)) bf.

(** The value of an option, [d] for [None]. *)
Definition opt_get {A} (d : A) (o : option A) : A := match o with Some x => x | None => d end.

(** The tokens of the payload 83 31 2C 32 ("DATA 1,2"). *)
Definition data_g_tokens : list BASICToken :=
  match lex_line true 10 [131; 71] with Some l => l | None => [] end.

Definition data_line_tokens : list BASICToken :=
  match lex_line true 10 [131; 49; 44; 50] with Some l => l | None => [] end.

(* ------------------------------------------------------------------ *)
(** * The claims *)

(** C1 (counterexample): the file 01 08 0C 08 0A 00 99 20 22 48 49 22 00 00
    00 does not decode to two tokens with the text line '   10 PRINT "hi"':
    the only record has three tokens. *)
Lemma C1_counterexample :
  option_map (map (fun r => List.length (snd r))) (decode_basic_file true e1_file) = Some [3%nat] /\
  option_map save_file (decode_basic_file true e1_file)
    <> Some ("   10 PRINT " ++ dq ++ "hi" ++ dq)%string.
Proof. split; [vm_compute; reflexivity | vm_compute; discriminate]. Qed.

(** C1 (amended): decoding the file 01 08 0C 08 0A 00 99 20 22 48 49 22 00
    00 00 yields one record, line 10, with the three tokens [PRINT], [" "]
    (the space byte after PRINT is kept, print context being string-like)
    and the chunked string token ["hi"] (bytes 22 48 49 22); the text output
    is the line '   10 PRINT   "hi"'. *)
Theorem C1_e1_decoding (re : bool) :
  option_map (map (fun '(ln, toks) => (ln, map (fun t => (token t, byte t)) toks)))
    (decode_basic_file re e1_file)
  = Some [(10, [("PRINT"%string, [153]); (" "%string, [32]);
                ((dq ++ "hi" ++ dq)%string, [34; 72; 73; 34])])] /\
  option_map save_file (decode_basic_file re e1_file)
  = Some ("   10 PRINT   " ++ dq ++ "hi" ++ dq)%string.
Proof. destruct re; split; vm_compute; reflexivity. Qed.

(** C2 (counterexample): lexing the payload 41 42 ("AB") chunks both bytes
    into one token whose [value] is 0x42, the second byte, not the seed 0x41. *)
Lemma C2_counterexample :
  option_map (map vb) (lex_line true 10 [65; 66]) = Some [(66, [65; 66])].
Proof. vm_compute. reflexivity. Qed.

(** C2 (amended): for every token the lexer produces, [value] is the last
    byte of [byte]: chunking with [+=] replaces [value] by the value of the
    byte concatenated last. *)
Theorem C2_value_is_last_byte re ln line toks :
  lex_line re ln line = Some toks -> Forall value_is_last toks.
Proof.
  unfold lex_line. intros H.
  destruct (lex_bytes re ln init_state line) as [st|] eqn:E; [|discriminate H].
  cbn in H. injection H as <-.
  apply (Forall_value_is_last_vb (decoded_tokens st)).
  - symmetry. apply check_line_language_vb.
  - eapply lex_bytes_value_is_last; [|exact E]. constructor.
Qed.

Lemma C2_witness :
  exists toks, lex_line true 10 [65; 66] = Some toks /\ Forall value_is_last toks.
Proof.
  eexists. split; [reflexivity|].
  apply (C2_value_is_last_byte true 10 [65; 66]). reflexivity.
Defined.

(** C3 (code bug): a line whose first token is a sign followed by one more
    byte ("-1", payload AB 31; "+1", payload AA 31) makes the unary-sign
    pass evaluate [tokens[-2]] on a one-token list: lexing fails. *)
Theorem C3_leading_sign_raises (re : bool) :
  lex_line re 10 [171; 49] = None /\ lex_line re 10 [170; 49] = None.
Proof. destruct re; split; vm_compute; reflexivity. Qed.

(** C4: for the command byte 0xB2 lexed outside a string when tokens already
    exist on the line, [_decode_cmd] tags the [=] as relational when an [IF]
    token occurs with no [IF], [:], [;] or [THEN] after it (the backward scan
    reaches an [IF] before any separator), and as assignment otherwise. *)
Theorem C4_equal_sign_scan re ln st :
  string_decl st = false -> decoded_tokens st <> [] ->
  exists st' b', decode_cmd re st (new_token 178 ln) = Some (st', b') /\
    (if_before_separator (decoded_tokens st) -> syntax b' = tag_of "operators" "relational") /\
    (~ if_before_separator (decoded_tokens st) -> syntax b' = tag_of "operators" "assignment").
Proof.
  intros Hs Hne. destruct (decode_cmd_equal_sign re ln st Hs Hne) as (st' & E & Et).
  eexists st', _. split; [exact E|]. unfold disambiguate_equal_sign. cbn [syntax set_syntax].
  rewrite Et, if_before_separator_rev. split; intros Hf.
  - rewrite scan_equal_found by exact Hf. reflexivity.
  - apply scan_equal_not_found. exact Hf.
Qed.

Lemma C4_witness :
  exists st' b',
    decode_cmd true (mkLexState false false false false 0 true
                       [set_token (new_token 139 20) "IF"; set_token (new_token 65 20) "a"])
               (new_token 178 20) = Some (st', b') /\
    (if_before_separator [set_token (new_token 139 20) "IF"; set_token (new_token 65 20) "a"] ->
       syntax b' = tag_of "operators" "relational") /\
    (~ if_before_separator [set_token (new_token 139 20) "IF"; set_token (new_token 65 20) "a"] ->
       syntax b' = tag_of "operators" "assignment").
Proof.
  apply (C4_equal_sign_scan true 20
           (mkLexState false false false false 0 true
              [set_token (new_token 139 20) "IF"; set_token (new_token 65 20) "a"])).
  - reflexivity.
  - discriminate.
Defined.

(** C5 (code bug): the run B3 B2 B3 ("<", "=", "<") is chunked into the
    single three-byte token "<=<", tagged relational: the third byte is
    compared with the value B2 of the chunk "<=" (the last byte concatenated
    onto it), not with its seed B3, although the code's own comment limits
    the chunking to 2-byte relational operators. *)
Theorem C5_relational_run_chunked (re : bool) :
  option_map (map (fun t => (token t, byte t, syntax t))) (lex_line re 50 [179; 178; 179])
    = Some [("<=<"%string, [179; 178; 179], tag_of "operators" "relational")].
Proof. destruct re; vm_compute; reflexivity. Qed.

(** C6 (code bug): for the file 01 08 0C 08 0A 00 41 41, whose only record
    has no 00 terminator, the record parser signals the warning (at offset
    6) but yields no pair at all: the remainder is dropped, and decoding
    gives an empty file. *)
Theorem C6_unterminated_record_dropped (re : bool) :
  detokenize_line unterminated_file = ([], [6]) /\
  decode_basic_file re unterminated_file = Some [].
Proof. destruct re; split; vm_compute; reflexivity. Qed.

(** C7 (code bug): in the payload 8F 8F 41 (REM, then a comment whose first
    byte is 8F), the comment's second byte is not concatenated onto the
    comment token, because the test meant for the REM token matches the
    comment token of value 8F: two comment tokens follow REM. *)
Theorem C7_comment_split (re : bool) :
  option_map (map (fun t => (byte t, syntax t))) (lex_line re 10 [143; 143; 65])
    = Some [([143], tag_of "commands" "statement");
            ([143], tag_of "strings" "comment");
            ([65], tag_of "strings" "comment")].
Proof. destruct re; vm_compute; reflexivity. Qed.

(** C8: after a line is lexed, every token is ASSEMBLY when the first
    token's text is DATA (case-insensitive) and every character of every
    later token's text is in the assembly character set; otherwise every
    token is BASIC. *)
Theorem C8_line_language re ln line toks :
  lex_line re ln line = Some toks ->
  Forall (fun t => language t =
    match map token toks with
    | first :: rest =>
        if String.eqb (lower first) "data" &&
           forallb (fun tk => forallb (fun c => char_in c ASSEMBLY_CHARS)
                                      (list_ascii_of_string tk)) rest
        then ASSEMBLY else BASIC
    | [] => BASIC
    end) toks.
Proof.
  unfold lex_line. intros H.
  destruct (lex_bytes re ln init_state line) as [st|] eqn:E; [|discriminate H].
  cbn [obind] in H. injection H as <-.
  assert (F : Forall (fun t => language t = BASIC) (decoded_tokens st)).
  { eapply Forall_impl; [|apply (lex_bytes_meta re ln line init_state st);
                           [constructor | exact E]].
    intros t Ht. unfold of_line, meta in Ht. congruence. }
  rewrite check_line_language_tokens. unfold check_line_language.
  destruct (map token (decoded_tokens st)) as [|first rest]; [exact F|].
  rewrite assembly_char_tests_forallb.
  destruct (_ && _); [|exact F].
  apply Forall_map. apply Forall_forall. intros t _. reflexivity.
Qed.

Lemma C8_witness :
  lex_line true 10 [131; 71] = Some data_g_tokens /\
  Forall (fun t => language t =
    match map token data_g_tokens with
    | first :: rest =>
        if String.eqb (lower first) "data" &&
           forallb (fun tk => forallb (fun c => char_in c ASSEMBLY_CHARS)
                                      (list_ascii_of_string tk)) rest
        then ASSEMBLY else BASIC
    | [] => BASIC
    end) data_g_tokens.
Proof.
  split; [vm_compute; reflexivity|].
  apply (C8_line_language true 10 [131; 71]). vm_compute. reflexivity.
Defined.

(** C9: after any sequence of bytes lexed from the initial state,
    [string_decl = (parenthesis == 1)] and [parenthesis] is 0 or 1; so the
    state [string_decl] true with [parenthesis] 0 never arises. *)
Theorem C9_string_mode_invariant re ln bs st :
  lex_bytes re ln init_state bs = Some st ->
  string_decl st = (parenthesis st =? 1) /\
  (parenthesis st = 0 \/ parenthesis st = 1) /\
  ~ (string_decl st = true /\ parenthesis st = 0).
Proof.
  intros H.
  assert (Hi : string_mode_inv st).
  { eapply lex_bytes_mode; [|exact H]. split; [reflexivity | left; reflexivity]. }
  destruct Hi as [Hs Hp]. split; [exact Hs|]. split; [exact Hp|].
  intros [Ht H0]. rewrite Hs, H0 in Ht. discriminate Ht.
Qed.

Lemma C9_witness :
  exists st, lex_bytes true 10 init_state [34; 65] = Some st /\
    string_decl st = (parenthesis st =? 1) /\
    (parenthesis st = 0 \/ parenthesis st = 1) /\
    ~ (string_decl st = true /\ parenthesis st = 0).
Proof.
  eexists. split; [reflexivity|].
  apply (C9_string_mode_invariant true 10 [34; 65]). reflexivity.
Defined.

(** C10: for tokens [a], [b] with equal [lineno] and [language] and
    nonempty texts, [a + b] and [a += b] both succeed and differ: [a + b]
    has text [a.token + " " + b.token], value [a.value] and the byte
    representations joined without separator; [a += b] has text
    [a.token + b.token], value [b.value] and the byte representations joined
    with a space. *)
Theorem C10_add_differs_from_iadd a b :
  lineno a = lineno b -> language a = language b ->
  token a <> EmptyString -> token b <> EmptyString ->
  exists s t, token_add a b = Some s /\ token_iadd a b = Some t /\ s <> t /\
    token s = (token a ++ " " ++ token b)%string /\ value s = value a /\
    byte_repr s = (byte_repr a ++ byte_repr b)%string /\
    token t = (token a ++ token b)%string /\ value t = value b /\
    byte_repr t = (byte_repr a ++ " " ++ byte_repr b)%string.
Proof.
  intros Hl Hg _ _.
  assert (Hc : add_check_other a b = true).
  { unfold add_check_other. rewrite Hl, Z.eqb_refl, Hg.
    destruct (language b); reflexivity. }
  unfold token_add, token_iadd. rewrite Hc.
  eexists _, _. split; [reflexivity|]. split; [reflexivity|].
  split; [|repeat split].
  intros E. apply (f_equal (fun x => String.length (token x))) in E. cbn in E.
  rewrite !length_string_append in E. cbn in E. lia.
Qed.

Lemma C10_witness :
  exists s t,
    token_add (set_token (new_token 65 10) "a") (set_token (new_token 66 10) "b") = Some s /\
    token_iadd (set_token (new_token 65 10) "a") (set_token (new_token 66 10) "b") = Some t /\
    s <> t /\
    token s = ("a" ++ " " ++ "b")%string /\ value s = 65 /\
    byte_repr s = ("0x41" ++ "0x42")%string /\
    token t = ("a" ++ "b")%string /\ value t = 66 /\
    byte_repr t = ("0x41" ++ " " ++ "0x42")%string.
Proof.
  apply (C10_add_differs_from_iadd (set_token (new_token 65 10) "a")
           (set_token (new_token 66 10) "b")); [reflexivity | reflexivity | discriminate | discriminate].
Defined.

(* ------------------------------------------------------------------ *)
(** * Further properties of the lexer, the record parser and the tokens *)

(** X1: lexing a payload neither loses nor reorders bytes other than
    spaces: the bytes of the tokens, read in order, are the payload's bytes
    with some spaces (0x20) left out, and exactly the payload when it has no
    space. *)
Theorem lex_line_keeps_bytes re ln line toks :
  lex_line re ln line = Some toks ->
  drops_spaces line (List.concat (map byte toks)) /\
  (~ In 32 line -> List.concat (map byte toks) = line).
Proof.
  unfold lex_line. intros H.
  destruct (lex_bytes re ln init_state line) as [st|] eqn:E; [|discriminate H].
  cbn [obind] in H. injection H as <-. rewrite check_line_language_bytes. split.
  - destruct (lex_bytes_concat_drops re ln line init_state st E) as (d & D & C).
    rewrite C. exact D.
  - intros Hn. exact (lex_bytes_concat_nospace re ln line init_state st Hn E).
Qed.

Lemma lex_line_keeps_bytes_witness :
  lex_line true 10 [65; 32; 66] = Some (opt_get [] (lex_line true 10 [65; 32; 66])) /\
  drops_spaces [65; 32; 66] (List.concat (map byte (opt_get [] (lex_line true 10 [65; 32; 66])))) /\
  (~ In 32 [65; 32; 66] ->
   List.concat (map byte (opt_get [] (lex_line true 10 [65; 32; 66]))) = [65; 32; 66]).
Proof.
  split; [vm_compute; reflexivity|].
  apply (lex_line_keeps_bytes true 10 [65; 32; 66]). vm_compute. reflexivity.
Defined.

(** X2: every token of a lexed line carries the line number it was lexed
    with, and the tokens of a line are either all BASIC or all ASSEMBLY. *)
Theorem lex_line_token_line_language re ln line toks :
  lex_line re ln line = Some toks ->
  Forall (fun t => lineno t = ln) toks /\
  (Forall (fun t => language t = BASIC) toks \/ Forall (fun t => language t = ASSEMBLY) toks).
Proof.
  unfold lex_line. intros H.
  destruct (lex_bytes re ln init_state line) as [st|] eqn:E; [|discriminate H].
  cbn [obind] in H. injection H as <-.
  assert (F : Forall (fun t => of_line ln (meta t)) (decoded_tokens st)).
  { apply (lex_bytes_meta re ln line init_state st); [constructor | exact E]. }
  assert (F1 : Forall (fun t => lineno t = ln) (decoded_tokens st)).
  { eapply Forall_impl; [|exact F]. intros t Ht. unfold of_line, meta in Ht. congruence. }
  assert (F2 : Forall (fun t => language t = BASIC) (decoded_tokens st)).
  { eapply Forall_impl; [|exact F]. intros t Ht. unfold of_line, meta in Ht. congruence. }
  unfold check_line_language. destruct (map token (decoded_tokens st)); [auto|].
  destruct (_ && _); [|auto].
  split.
  - apply Forall_map. eapply Forall_impl; [|exact F1]. intros t Ht. exact Ht.
  - right. apply Forall_map. apply Forall_forall. intros t _. reflexivity.
Qed.

Lemma lex_line_token_line_language_witness :
  lex_line true 10 [131; 49; 44; 50] = Some data_line_tokens /\
  Forall (fun t => lineno t = 10) data_line_tokens /\
  (Forall (fun t => language t = BASIC) data_line_tokens \/
   Forall (fun t => language t = ASSEMBLY) data_line_tokens).
Proof.
  split; [vm_compute; reflexivity|].
  apply (lex_line_token_line_language true 10 [131; 49; 44; 50]). vm_compute. reflexivity.
Defined.

(** X3: spaces at the start of a payload never change its lexing: they are
    skipped before any token exists. *)
Theorem lex_line_leading_spaces re ln n line :
  lex_line re ln (repeat 32 n ++ line) = lex_line re ln line.
Proof.
  unfold lex_line. rewrite lex_bytes_app, lex_bytes_spaces by reflexivity. reflexivity.
Qed.

(** X4: once a REM byte (0x8F) is lexed outside a string, every later byte
    of the line is kept, spaces included: the bytes of the tokens end with
    the REM byte and the rest of the payload, in order. *)
Theorem lex_line_rem_keeps_rest re ln pre rest sp toks :
  lex_bytes re ln init_state pre = Some sp -> string_decl sp = false ->
  lex_line re ln (pre ++ 143 :: rest) = Some toks ->
  List.concat (map byte toks) = List.concat (map byte (decoded_tokens sp)) ++ 143 :: rest.
Proof.
  intros Hp Hs H. unfold lex_line in H. rewrite lex_bytes_app, Hp in H.
  cbn [obind lex_bytes] in H.
  destruct (lex_byte re ln sp 143) as [s1|] eqn:E; [|discriminate H].
  destruct (lex_byte_comment _ _ _ _ _ Hs (or_intror eq_refl) E) as (C1 & C2 & C3).
  cbn [obind] in H.
  destruct (lex_bytes re ln s1 rest) as [s2|] eqn:E2; [|discriminate H].
  cbn [obind] in H. injection H as <-. rewrite check_line_language_bytes.
  rewrite (lex_bytes_comment _ _ _ _ _ C2 C1 E2), C3, <- app_assoc. reflexivity.
Qed.

Lemma lex_line_rem_keeps_rest_witness :
  lex_bytes true 10 init_state [65] = Some (opt_get init_state (lex_bytes true 10 init_state [65])) /\
  string_decl (opt_get init_state (lex_bytes true 10 init_state [65])) = false /\
  lex_line true 10 ([65] ++ 143 :: [32; 66])
    = Some (opt_get [] (lex_line true 10 ([65] ++ 143 :: [32; 66]))) /\
  List.concat (map byte (opt_get [] (lex_line true 10 ([65] ++ 143 :: [32; 66]))))
    = List.concat (map byte (decoded_tokens (opt_get init_state (lex_bytes true 10 init_state [65]))))
      ++ 143 :: [32; 66].
Proof.
  split; [vm_compute; reflexivity|]. split; [vm_compute; reflexivity|].
  split; [vm_compute; reflexivity|].
  apply (lex_line_rem_keeps_rest true 10 [65] [32; 66]); vm_compute; reflexivity.
Defined.

(** X5: a string literal with no double quote inside, started outside a
    string and a comment, becomes one token holding all its bytes, quotes
    included; the tokens before it keep their bytes. *)
Theorem lex_line_string_literal re ln pre s sp toks :
  ~ In 34 s ->
  lex_bytes re ln init_state pre = Some sp -> string_decl sp = false -> comment_cmd sp = false ->
  lex_line re ln (pre ++ 34 :: s ++ [34]) = Some toks ->
  map byte toks = map byte (decoded_tokens sp) ++ [34 :: s ++ [34]].
Proof.
  intros Hn Hp Hs Hc H.
  assert (Hp0 : parenthesis sp = 0).
  { destruct (lex_bytes_mode _ _ _ _ _ string_mode_inv_init Hp) as [I1 [I2|I2]]; [exact I2|].
    rewrite I2, Hs in I1. discriminate I1. }
  unfold lex_line in H. rewrite lex_bytes_app, Hp in H. cbn [obind lex_bytes] in H.
  destruct (lex_byte re ln sp 34) as [s1|] eqn:E1; [|discriminate H].
  destruct (lex_byte_open_quote _ _ _ _ Hs Hc Hp0 E1) as (O1 & O2 & O3).
  cbn [obind] in H. rewrite lex_bytes_app in H.
  destruct (lex_bytes re ln s1 s) as [s2|] eqn:E2; [|discriminate H].
  destruct (lex_bytes_string_body _ _ _ _ _ _ _ Hn O1 O2 O3 E2) as (B1 & B2 & B3).
  cbn [obind lex_bytes] in H.
  destruct (lex_byte re ln s2 34) as [s3|] eqn:E3; [|discriminate H].
  destruct (lex_byte_close_quote _ _ _ _ B1 B2 E3) as (_ & _ & L3).
  cbn [obind] in H. injection H as <-. rewrite check_line_language_bytes, L3, B3.
  unfold chunk_bytes. rewrite is_nil_snoc, update_last_snoc. reflexivity.
Qed.

Lemma lex_line_string_literal_witness :
  lex_bytes true 10 init_state [153; 32]
    = Some (opt_get init_state (lex_bytes true 10 init_state [153; 32])) /\
  lex_line true 10 ([153; 32] ++ 34 :: [72; 73] ++ [34])
    = Some (opt_get [] (lex_line true 10 ([153; 32] ++ 34 :: [72; 73] ++ [34]))) /\
  map byte (opt_get [] (lex_line true 10 ([153; 32] ++ 34 :: [72; 73] ++ [34])))
    = map byte (decoded_tokens (opt_get init_state (lex_bytes true 10 init_state [153; 32])))
      ++ [34 :: [72; 73] ++ [34]].
Proof.
  split; [vm_compute; reflexivity|]. split; [vm_compute; reflexivity|].
  apply (lex_line_string_literal true 10 [153; 32] [72; 73]).
  - vm_compute. intros [H|[H|H]]; discriminate H || exact H.
  - vm_compute. reflexivity.
  - vm_compute. reflexivity.
  - vm_compute. reflexivity.
  - vm_compute. reflexivity.
Defined.

(** X6: every record the record parser yields has a payload free of 0x00
    bytes that stands in the file immediately before a 0x00; and when every
    file byte is in 0..255 its line number is in 0..65535. *)
Theorem detokenize_line_payloads binary ln txt :
  In (ln, txt) (fst (detokenize_line binary)) ->
  ~ In 0 txt /\ (exists p rest, skipn p binary = txt ++ 0 :: rest) /\
  (forallb is_byte binary = true -> 0 <= ln < 65536).
Proof.
  intros H. destruct (detokenize_line_records binary ln txt H) as [H1 H2].
  split; [exact H1|]. split.
  - exact (detokenize_loop_located _ _ _ _ _ H).
  - intros Hb. apply H2. apply forallb_is_byte. exact Hb.
Qed.

Lemma detokenize_line_payloads_witness :
  In (10, [153; 32; 34; 72; 73; 34]) (fst (detokenize_line e1_file)) /\
  ~ In 0 [153; 32; 34; 72; 73; 34] /\
  (exists p rest, skipn p e1_file = [153; 32; 34; 72; 73; 34] ++ 0 :: rest) /\
  (forallb is_byte e1_file = true -> 0 <= 10 < 65536).
Proof.
  split; [vm_compute; left; reflexivity|].
  apply detokenize_line_payloads. vm_compute. left. reflexivity.
Defined.

(** X7: when every file byte is in 0..255, decoding succeeds exactly when
    every record's payload lexes, and the program has one line per record,
    in file order, with the record's line number and its lexed tokens. *)
Theorem decode_basic_file_records re binary bf :
  forallb is_byte binary = true ->
  decode_basic_file re binary = Some bf <->
  Forall2 (rec_lexes re) (fst (detokenize_line binary)) bf.
Proof.
  intros Hb. apply forallb_is_byte in Hb.
  unfold decode_basic_file. rewrite decode_records_spec.
  - split; [intros (l & -> & H); exact H | intros H; exists bf; auto].
  - apply Forall_forall. intros [ln txt] Hin.
    apply (detokenize_line_records binary ln txt Hin). exact Hb.
Qed.

Lemma decode_basic_file_records_witness :
  forallb is_byte e1_file = true /\
  (decode_basic_file true e1_file = Some (opt_get [] (decode_basic_file true e1_file)) <->
   Forall2 (rec_lexes true) (fst (detokenize_line e1_file)) (opt_get [] (decode_basic_file true e1_file))).
Proof.
  split; [vm_compute; reflexivity|].
  apply decode_basic_file_records. vm_compute. reflexivity.
Defined.

(** X8: a file of at most six bytes holds no record: the record parser
    yields nothing and prints no warning, and decoding gives an empty
    program. *)
Theorem detokenize_short_file re binary :
  (List.length binary <= 6)%nat ->
  detokenize_line binary = ([], []) /\ decode_basic_file re binary = Some [].
Proof.
  intros Hl.
  assert (D : detokenize_line binary = ([], [])).
  { unfold detokenize_line. destruct (List.length binary) as [|n] eqn:El; [reflexivity|].
    cbn [detokenize_loop]. rewrite El.
    replace (2 <? Z.of_nat (S n) - 4) with false by (symmetry; apply Z.ltb_ge; lia).
    reflexivity. }
  split; [exact D|]. unfold decode_basic_file. rewrite D. reflexivity.
Qed.

Lemma detokenize_short_file_witness :
  detokenize_line [1; 8; 12; 8; 10; 0] = ([], []) /\
  decode_basic_file true [1; 8; 12; 8; 10; 0] = Some [].
Proof. apply detokenize_short_file. cbn. lia. Defined.

(** X9: in-place chunking is associative: [(a += b) += c] and
    [a += (b += c)] both fail or both give the same token. *)
Theorem token_iadd_assoc a b c :
  obind (token_iadd a b) (fun ab => token_iadd ab c) =
  obind (token_iadd b c) (fun bc => token_iadd a bc).
Proof.
  destruct a as [va la ba ra ta sa ga], b as [vb' lb bb rb tb sb gb],
           c as [vc lc bc rc tc sc gc].
  unfold token_iadd, add_check_other. cbn [lineno language].
  destruct ga, gb, gc; cbn [Language_eqb];
  repeat (match goal with |- context [?x =? ?y] => destruct (Z.eqb_spec x y) end;
          cbn [andb obind lineno language Language_eqb]);
  subst; try congruence; cbn [value lineno byte byte_repr token syntax language];
  rewrite ?app_assoc, ?string_app_assoc; cbn [String.append];
  rewrite ?string_app_assoc; reflexivity.
Qed.

(** X10: the non-mutating concatenation is associative on BASIC tokens:
    when [a] and [c] are BASIC, [(a + b) + c] and [a + (b + c)] both fail
    or both give the same token. *)
Theorem token_add_assoc a b c :
  language a = BASIC -> language c = BASIC ->
  obind (token_add a b) (fun ab => token_add ab c) =
  obind (token_add b c) (fun bc => token_add a bc).
Proof.
  destruct a as [va la ba ra ta sa ga], b as [vb' lb bb rb tb sb gb],
           c as [vc lc bc rc tc sc gc].
  cbn [language]. intros -> ->.
  unfold token_add, add_check_other, new_token_full. cbn [lineno language].
  destruct gb; cbn [Language_eqb];
  repeat (match goal with |- context [?x =? ?y] => destruct (Z.eqb_spec x y) end;
          cbn [andb obind lineno language Language_eqb]);
  subst; try congruence; cbn [value lineno byte byte_repr token syntax language];
  rewrite ?app_assoc, ?string_app_assoc; cbn [String.append];
  rewrite ?string_app_assoc; reflexivity.
Qed.

Lemma token_add_assoc_witness :
  obind (token_add (new_token 65 10) (new_token 66 10)) (fun ab => token_add ab (new_token 67 10)) =
  obind (token_add (new_token 66 10) (new_token 67 10)) (fun bc => token_add (new_token 65 10) bc).
Proof. apply token_add_assoc; reflexivity. Defined.

(** X11: the saved text has one line per program line: when no token text
    holds a newline, the text has exactly one newline fewer than the
    program has lines. *)
Theorem save_file_one_line_per_line bf :
  no_newline_tokens bf = true ->
  count_nl (save_file bf) = (List.length bf - 1)%nat.
Proof.
  intros H. unfold save_file. rewrite count_nl_join, length_map.
  replace (count_nl (str1 (ascii_of_nat 10))) with 1%nat by reflexivity.
  assert (Z0 : fold_right Nat.add 0%nat
                 (map count_nl (map (fun '(ln, tokens) =>
                    (fmt5d ln ++ " " ++ join " " (map token tokens))%string) bf)) = 0%nat).
  { unfold no_newline_tokens in H. induction bf as [|[ln tks] r IH]; [reflexivity|].
    cbn [forallb snd] in H. apply andb_prop in H as [H1 H2].
    cbn [map fold_right]. rewrite (IH H2).
    rewrite !count_nl_app, count_nl_fmt5d, count_nl_join.
    assert (S0 : fold_right Nat.add 0%nat (map count_nl (map token tks)) = 0%nat).
    { clear - H1. induction tks as [|t r IH]; [reflexivity|].
      cbn [forallb] in H1. apply andb_prop in H1 as [Ht Hr].
      cbn [map fold_right]. apply Nat.eqb_eq in Ht. rewrite Ht, (IH Hr). reflexivity. }
    rewrite S0. cbn. lia. }
  rewrite Z0. lia.
Qed.

Lemma save_file_one_line_per_line_witness :
  no_newline_tokens [(10, [set_token (new_token 65 10) "a"]); (20, [set_token (new_token 66 20) "b"])] = true /\
  count_nl (save_file [(10, [set_token (new_token 65 10) "a"]); (20, [set_token (new_token 66 20) "b"])])
    = (List.length [(10, [set_token (new_token 65 10) "a"]); (20, [set_token (new_token 66 20) "b"])] - 1)%nat.
Proof.
  split; [reflexivity|]. apply save_file_one_line_per_line. reflexivity.
Defined.
